(** * librpg.dialog: line wrapping, box pagination, dialogs and the message queue

    A shallow embedding of [librpg/dialog.py].  Python values are modelled as
    follows: integers (pixel sizes, key codes, event types) are [Z]; a [str] is
    a [string] of 8-bit characters; a wrapped line [[height, text]] is a pair
    [Z * string]; Python lists are Rocq lists; loops are recursive functions
    that thread the loop's local variables; an exception is the [Raise] case of
    [result]. *)

From Stdlib Require Import ZArith List String Ascii Bool Lia.
Import ListNotations.

Open Scope string_scope.
Open Scope list_scope.
Open Scope Z_scope.

(** ** Exceptions *)

Inductive exn : Type :=
| IndexError
| AssertionError.

Inductive result (A : Type) : Type :=
| Ok (a : A)
| Raise (e : exn).

Arguments Ok {A} a.
Arguments Raise {A} e.

Definition bind {A B : Type} (r : result A) (k : A -> result B) : result B :=
  match r with
  | Ok a => k a
  | Raise e => Raise e
  end.

Notation "x <- r ;; k" := (bind r (fun x => k))
  (at level 61, r at next level, right associativity).

(** ** [str.split()] *)

(** The characters [str.isspace] accepts in an 8-bit string: tab, line feed,
    vertical tab, form feed, carriage return and space. *)
Definition isspace (c : ascii) : bool :=
  let n := nat_of_ascii c in
  ((9 <=? n) && (n <=? 13))%nat || (n =? 32)%nat.

Definition is_empty (s : string) : bool :=
  match s with
  | EmptyString => true
  | String _ _ => false
  end.

(** One left-to-right scan; [cur] is the word being read ([""] between words). *)
Fixpoint split_from (cur : string) (s : string) : list string :=
  match s with
  | EmptyString => if is_empty cur then [] else [cur]
  | String c s' =>
      if isspace c then
        if is_empty cur then split_from "" s' else cur :: split_from "" s'
      else split_from (cur ++ String c "")%string s'
  end.

(** [text.split()] with no separator: the maximal runs of non-space characters. *)
Definition split (text : string) : list string := split_from "" text.

(** [sep.join(words)] *)
Fixpoint join (sep : string) (words : list string) : string :=
  match words with
  | [] => ""
  | [w] => w
  | w :: ws => (w ++ sep ++ join sep ws)%string
  end.

(** ** Fonts and lines *)

(** The only thing the module asks of a font: [font.size(text)], the pair
    (width, height) the text would take when rendered. *)
Record Font : Type := mkFont { size : string -> Z * Z }.

(** A line is the two-element list [[height, text]]. *)
Definition Line : Type := (Z * string)%type.

Definition line_height (l : Line) : Z := fst l.
Definition line_text (l : Line) : string := snd l.

(** ** [build_lines] *)

(** The [for word in words[1:]] loop with its three live variables, followed by
    the final [lines.append([height, cur_line])]. *)
Fixpoint build_lines_loop (box_width : Z) (font : Font) (words : list string)
  (lines : list Line) (cur_line : string) (height : Z) : list Line :=
  match words with
  | [] => lines ++ [(height, cur_line)]
  | word :: rest =>
      let projected_line := (cur_line ++ " " ++ word)%string in
      let '(width, height) := size font projected_line in
      if width >? box_width then
        build_lines_loop box_width font rest (lines ++ [(height, cur_line)]) word height
      else
        build_lines_loop box_width font rest lines (cur_line ++ " " ++ word)%string height
  end.

Definition build_lines (text : string) (box_width : Z) (font : Font)
  : result (list Line) :=
  let words := split text in
  match words with
  | [] => Raise IndexError
  | word0 :: rest =>
      let cur_line := word0 in
      let '(_, height) := size font cur_line in
      Ok (build_lines_loop box_width font rest [] cur_line height)
  end.

(** ** [split_boxes] *)

Definition Box : Type := list Line.

Fixpoint split_boxes_loop (box_height line_spacing : Z) (lines : list Line)
  (boxes : list Box) (box_cur_height : Z) (box : Box) : list Box :=
  match lines with
  | [] =>
      match box with
      | [] => boxes
      | _ :: _ => boxes ++ [box]
      end
  | line :: rest =>
      if box_cur_height + fst line + line_spacing >? box_height then
        split_boxes_loop box_height line_spacing rest (boxes ++ [box]) (fst line) [line]
      else
        split_boxes_loop box_height line_spacing rest boxes
          (box_cur_height + (fst line + line_spacing)) (box ++ [line])
  end.

Definition split_boxes (lines : list Line) (box_height line_spacing : Z)
  : result (list Box) :=
  match lines with
  | [] => Raise IndexError
  | line0 :: rest =>
      Ok (split_boxes_loop box_height line_spacing rest [] (fst line0) [line0])
  end.

(** ** Configuration

    The values the module reads from [librpg.config] and [librpg.locals]; they
    are inputs of this development. *)

Record DialogConfig : Type := mkDialogConfig {
  border_width : Z;
  font_size : Z;
  line_spacing : Z;
  choice_line_spacing : Z
}.

Record GraphicsConfig : Type := mkGraphicsConfig {
  screen_width : Z;
  screen_height : Z
}.

Record GameConfig : Type := mkGameConfig {
  key_action : list Z;
  key_left : list Z;
  key_right : list Z
}.

Record Theme : Type := mkTheme { get_font : Z -> Font }.

Record MenuConfig : Type := mkMenuConfig { theme : Theme }.

Record Env : Type := mkEnv {
  KEYDOWN : Z;
  cfg : DialogConfig;
  g_cfg : GraphicsConfig;
  m_cfg : GameConfig;
  menu_config : MenuConfig
}.

(** A pygame event, as far as the dialogs look at it. *)
Record Event : Type := mkEvent { type : Z; key : Z }.

(** [k in keys] *)
Definition key_in (k : Z) (keys : list Z) : bool := existsb (Z.eqb k) keys.

(** ** The widget toolkit *)

Record Label : Type := mkLabel {
  label_text : string;
  focusable : option bool  (* the keyword argument, when it is passed *)
}.

Definition Position : Type := (Z * Z)%type.

Record Panel : Type := mkPanel {
  panel_width : Z;
  panel_height : Z;
  panel_widgets : list (Label * Position)
}.

Definition label_eq_dec (a b : Label) : {a = b} + {a <> b}.
Proof.
  decide equality.
  - decide equality. apply bool_dec.
  - apply string_dec.
Defined.

Definition panel_eq_dec (a b : Panel) : {a = b} + {a <> b}.
Proof.
  decide equality.
  - apply list_eq_dec. intros [l1 [x1 y1]] [l2 [x2 y2]].
    destruct (label_eq_dec l1 l2); [|right; congruence].
    destruct (Z.eq_dec x1 x2); [|right; congruence].
    destruct (Z.eq_dec y1 y2); [|right; congruence].
    left; congruence.
  - apply Z.eq_dec.
  - apply Z.eq_dec.
Defined.

(** [menu_config.theme] *)
Definition configured_theme (env : Env) : Theme := theme (menu_config env).

(** Modelled from the spec: [librpg.menu] ([Menu], [Panel], [Label],
    [ArrowCursor]) is not part of the sources at hand.  A menu is the record of
    what its constructor receives, the widgets added to it with their
    positions, the widget its cursor is bound to, and whether [close] was
    called; [Menu.theme] is the configured theme. *)
Module Menu.

Record t : Type := mk {
  width : Z;
  height : Z;
  x : Z;
  y : Z;
  bg : Z * Z * Z * Z;
  theme : Theme;
  widgets : list (Panel * Position);
  cursor : option (option Label);
  closed : bool
}.

Definition __init__ (env : Env) (width height x y : Z) (bg : Z * Z * Z * Z) : t :=
  mk width height x y bg (configured_theme env) [] None false.

Definition add_widget (self : t) (widget : Panel) (pos : Position) : t :=
  mk (width self) (height self) (x self) (y self) (bg self) (theme self)
     (widgets self ++ [(widget, pos)]) (cursor self) (closed self).

Fixpoint remove_first (widget : Panel) (ws : list (Panel * Position))
  : list (Panel * Position) :=
  match ws with
  | [] => []
  | (w, pos) :: rest =>
      if panel_eq_dec w widget then rest else (w, pos) :: remove_first widget rest
  end.

Definition remove_widget (self : t) (widget : Panel) : t :=
  mk (width self) (height self) (x self) (y self) (bg self) (theme self)
     (remove_first widget (widgets self)) (cursor self) (closed self).

Definition bind_cursor (self : t) (widget : option Label) : t :=
  mk (width self) (height self) (x self) (y self) (bg self) (theme self)
     (widgets self) (Some widget) (closed self).

Definition close (self : t) : t :=
  mk (width self) (height self) (x self) (y self) (bg self) (theme self)
     (widgets self) (cursor self) true.

End Menu.

Definition panel_add_widget (panel : Panel) (label : Label) (pos : Position) : Panel :=
  mkPanel (panel_width panel) (panel_height panel) (panel_widgets panel ++ [(label, pos)]).

(** The drawing loop every constructor repeats:
    [for line in lines: label = Label(line[1], ...);
     panel.add_widget(label, (x, cfg.border_width + y_acc));
     y_acc += line[0] + spacing].
    It returns the panel and [y_acc]. *)
Fixpoint draw_lines (env : Env) (foc : option bool) (x spacing : Z)
  (lines : list Line) (panel : Panel) (y_acc : Z) : Panel * Z :=
  match lines with
  | [] => (panel, y_acc)
  | line :: rest =>
      let label := mkLabel (snd line) foc in
      let panel := panel_add_widget panel label (x, border_width (cfg env) + y_acc) in
      draw_lines env foc x spacing rest panel (y_acc + (fst line + spacing))
  end.

(** [sum([line[0] for line in lines])] *)
Definition sum_heights (lines : list Line) : Z :=
  fold_left Z.add (map fst lines) 0.

(** ** Dialogs

    Every dialog class derives from [Menu]; its record holds the base object in
    the field [menu].  A constructor that adds its panel to the menu and then
    draws the labels on it is modelled by adding the drawn panel: the menu
    holds a reference to the one panel object. *)

Module MessageDialog.

Record t : Type := mk {
  text : string;
  block_movement : bool;
  menu : Menu.t
}.

Definition __init__ (env : Env) (text : string) (block_movement : bool) : result t :=
  let bw := border_width (cfg env) in
  let menu := Menu.__init__ env
                (screen_width (g_cfg env) - 2 * bw)
                (screen_height (g_cfg env) / 2 - 2 * bw)
                bw
                (screen_height (g_cfg env) / 2 + bw)
                (0, 0, 0, 0) in
  let panel := mkPanel (Menu.width menu) (Menu.height menu) [] in
  let font := get_font (Menu.theme menu) (font_size (cfg env)) in
  let box_width := screen_width (g_cfg env) - 4 * bw in
  lines <- build_lines text box_width font ;;
  let '(panel, _) := draw_lines env None bw (line_spacing (cfg env)) lines panel 0 in
  Ok (mk text block_movement (Menu.add_widget menu panel (0, 0))).

Definition close (self : t) : t :=
  mk (text self) (block_movement self) (Menu.close (menu self)).

Definition process_event (env : Env) (self : t) (event : Event) : t * bool :=
  let self :=
    if type event =? KEYDOWN env then
      if key_in (key event) (key_action (m_cfg env)) then close self else self
    else self in
  (self, block_movement self).

End MessageDialog.

Module ElasticMessageDialog.

Record t : Type := mk {
  text : string;
  block_movement : bool;
  box_height : Z;
  menu : Menu.t
}.

(** [sum(...) + (len(lines) - 1) * cfg.line_spacing + 4 * cfg.border_width] *)
Definition compute_box_height (env : Env) (lines : list Line) : Z :=
  sum_heights lines
  + (Z.of_nat (List.length lines) - 1) * line_spacing (cfg env)
  + 4 * border_width (cfg env).

Definition __init__ (env : Env) (text : string) (block_movement : bool) : result t :=
  let bw := border_width (cfg env) in
  let font := get_font (configured_theme env) (font_size (cfg env)) in
  let box_width := screen_width (g_cfg env) - 4 * bw in
  lines <- build_lines text box_width font ;;
  let box_height := compute_box_height env lines in
  if box_height <? screen_height (g_cfg env) then
    let menu := Menu.__init__ env
                  (screen_width (g_cfg env) - 2 * bw)
                  (box_height - 2 * bw)
                  bw
                  (screen_height (g_cfg env) - box_height + bw)
                  (0, 0, 0, 0) in
    let panel := mkPanel (Menu.width menu) (Menu.height menu) [] in
    let '(panel, _) := draw_lines env None bw (line_spacing (cfg env)) lines panel 0 in
    Ok (mk text block_movement box_height (Menu.add_widget menu panel (0, 0)))
  else Raise AssertionError.

Definition close (self : t) : t :=
  mk (text self) (block_movement self) (box_height self) (Menu.close (menu self)).

Definition process_event (env : Env) (self : t) (event : Event) : t * bool :=
  let self :=
    if type event =? KEYDOWN env then
      if key_in (key event) (key_action (m_cfg env)) then close self else self
    else self in
  (self, block_movement self).

End ElasticMessageDialog.

Module MultiMessageDialog.

Record t : Type := mk {
  text : string;
  block_movement : bool;
  current_panel : option Panel;
  boxes : list Box;
  panels : list Panel;
  menu : Menu.t
}.

(** The body of [for box in self.boxes]: the panel of one box. *)
Definition draw_panel (env : Env) (width height : Z) (box : Box) : Panel :=
  fst (draw_lines env None (border_width (cfg env)) (line_spacing (cfg env))
         box (mkPanel width height []) 0).

Definition advance_panel (self : t) : t :=
  let self :=
    match current_panel self with
    | Some p =>
        mk (text self) (block_movement self) None (boxes self) (panels self)
           (Menu.remove_widget (menu self) p)
    | None => self
    end in
  match panels self with
  | p :: rest =>
      mk (text self) (block_movement self) (Some p) (boxes self) rest
         (Menu.add_widget (menu self) p (0, 0))
  | [] => self
  end.

Definition __init__ (env : Env) (text : string) (block_movement : bool) : result t :=
  let bw := border_width (cfg env) in
  let menu := Menu.__init__ env
                (screen_width (g_cfg env) - 2 * bw)
                (screen_height (g_cfg env) / 2 - 2 * bw)
                bw
                (screen_height (g_cfg env) / 2 + bw)
                (0, 0, 0, 0) in
  let font := get_font (Menu.theme menu) (font_size (cfg env)) in
  let box_width := screen_width (g_cfg env) - 4 * bw in
  lines <- build_lines text box_width font ;;
  let box_height := screen_height (g_cfg env) / 2 - 4 * bw in
  boxes <- split_boxes lines box_height (line_spacing (cfg env)) ;;
  let panels := map (draw_panel env (Menu.width menu) (Menu.height menu)) boxes in
  Ok (advance_panel (mk text block_movement None boxes panels menu)).

Definition close (self : t) : t :=
  mk (text self) (block_movement self) (current_panel self) (boxes self)
     (panels self) (Menu.close (menu self)).

Definition process_event (env : Env) (self : t) (event : Event) : t * bool :=
  let self :=
    if type event =? KEYDOWN env then
      if key_in (key event) (key_action (m_cfg env)) then
        let self := advance_panel self in
        match current_panel self with
        | None => close self
        | Some _ => self
        end
      else self
    else self in
  (self, block_movement self).

End MultiMessageDialog.

Module ChoiceDialog.

Record t : Type := mk {
  block_movement : bool;
  text : string;
  choices : list string;
  lines : list Line;
  choice_lines : list Line;
  starting_option : option Label;
  menu : Menu.t
}.

(** [for choice in self.choices: self.choice_lines.extend(build_lines(...))] *)
Fixpoint build_choice_lines (box_width : Z) (font : Font) (choices : list string)
  (choice_lines : list Line) : result (list Line) :=
  match choices with
  | [] => Ok choice_lines
  | choice :: rest =>
      choice_line <- build_lines choice box_width font ;;
      build_choice_lines box_width font rest (choice_lines ++ choice_line)
  end.

(** [__build_lines]: the pair ([self.lines], [self.choice_lines]). *)
Definition __build_lines (env : Env) (text : string) (choices : list string)
  (width : Z) (font : Font) : result (list Line * list Line) :=
  let box_width := width - 2 * border_width (cfg env) in
  lines <- build_lines text box_width font ;;
  let box_width := width - 3 * border_width (cfg env) in
  choice_lines <- build_choice_lines box_width font choices [] ;;
  Ok (lines, choice_lines).

Definition __init__ (env : Env) (text : string) (choices : list string)
  (block_movement : bool) : result t :=
  let bw := border_width (cfg env) in
  let menu := Menu.__init__ env
                (screen_width (g_cfg env) - 2 * bw)
                (screen_height (g_cfg env) / 2 - 2 * bw)
                bw
                (screen_height (g_cfg env) / 2 + bw)
                (0, 0, 0, 0) in
  let panel := mkPanel (Menu.width menu) (Menu.height menu) [] in
  let font := get_font (Menu.theme menu) (font_size (cfg env)) in
  built <- __build_lines env text choices (Menu.width menu) font ;;
  let '(lines, choice_lines) := built in
  let '(panel, y_acc) :=
    draw_lines env (Some false) bw (line_spacing (cfg env)) lines panel 0 in
  let starting_option :=
    match choice_lines with
    | [] => None
    | line :: _ => Some (mkLabel (snd line) (Some true))
    end in
  let '(panel, _) :=
    draw_lines env (Some true) (2 * bw) (choice_line_spacing (cfg env))
      choice_lines panel y_acc in
  let menu := Menu.add_widget menu panel (0, 0) in
  let menu := Menu.bind_cursor menu starting_option in
  Ok (mk block_movement text choices lines choice_lines starting_option menu).

Definition close (self : t) : t :=
  mk (block_movement self) (text self) (choices self) (lines self)
     (choice_lines self) (starting_option self) (Menu.close (menu self)).

Definition process_event (env : Env) (self : t) (event : Event) : t * bool :=
  if type event =? KEYDOWN env then
    let self :=
      if key_in (key event) (key_action (m_cfg env)) then close self else self in
    if key_in (key event) (key_left (m_cfg env))
       || key_in (key event) (key_right (m_cfg env))
    then (self, true)
    else (self, block_movement self)
  else (self, block_movement self).

End ChoiceDialog.

(** *** Driving a [MultiMessageDialog] with events *)

(** A key-down event of a confirm key. *)
Definition is_confirm (env : Env) (event : Event) : bool :=
  (type event =? KEYDOWN env) && key_in (key event) (key_action (m_cfg env)).

(** The dialog after a sequence of events, each handled by [process_event]. *)
Definition feed (env : Env) (d : MultiMessageDialog.t) (events : list Event)
  : MultiMessageDialog.t :=
  fold_left (fun d event => fst (MultiMessageDialog.process_event env d event)) events d.

(** How many of the events are confirm-key events. *)
Definition confirms (env : Env) (events : list Event) : nat :=
  List.length (filter (is_confirm env) events).

(** The pages of a dialog, in order: the panels its constructor draws, one for
    each box. *)
Definition pages (env : Env) (d : MultiMessageDialog.t) : list Panel :=
  map (MultiMessageDialog.draw_panel env
         (Menu.width (MultiMessageDialog.menu d))
         (Menu.height (MultiMessageDialog.menu d)))
      (MultiMessageDialog.boxes d).

(** The dialog shows page [j] of [pgs]: that page is the current panel and the
    only widget of the menu, the later pages wait in [panels], and the menu is
    open. *)
Definition showing (pgs : list Panel) (j : nat) (d : MultiMessageDialog.t) : Prop :=
  exists p,
    nth_error pgs j = Some p
    /\ MultiMessageDialog.current_panel d = Some p
    /\ MultiMessageDialog.panels d = skipn (S j) pgs
    /\ Menu.widgets (MultiMessageDialog.menu d) = [(p, (0, 0))]
    /\ Menu.closed (MultiMessageDialog.menu d) = false.

(** The dialog is closed: no current panel, nothing on the menu, [close] called. *)
Definition closed_dialog (d : MultiMessageDialog.t) : Prop :=
  MultiMessageDialog.current_panel d = None
  /\ Menu.widgets (MultiMessageDialog.menu d) = []
  /\ Menu.closed (MultiMessageDialog.menu d) = true.

(** The dialogs a queue can hold. *)
Inductive Dialog : Type :=
| Message (d : MessageDialog.t)
| Elastic (d : ElasticMessageDialog.t)
| Multi (d : MultiMessageDialog.t)
| Choice (d : ChoiceDialog.t).

Definition block_movement (d : Dialog) : bool :=
  match d with
  | Message d => MessageDialog.block_movement d
  | Elastic d => ElasticMessageDialog.block_movement d
  | Multi d => MultiMessageDialog.block_movement d
  | Choice d => ChoiceDialog.block_movement d
  end.

(** [dialog.process_event(event)], dispatched on the dialog's class. *)
Definition process_event (env : Env) (d : Dialog) (event : Event) : Dialog * bool :=
  match d with
  | Message d =>
      let '(d, r) := MessageDialog.process_event env d event in (Message d, r)
  | Elastic d =>
      let '(d, r) := ElasticMessageDialog.process_event env d event in (Elastic d, r)
  | Multi d =>
      let '(d, r) := MultiMessageDialog.process_event env d event in (Multi d, r)
  | Choice d =>
      let '(d, r) := ChoiceDialog.process_event env d event in (Choice d, r)
  end.

(** ** The message queue *)

Module MessageQueue.

(** Modelled from the spec: [MenuController] and the context stack
    ([librpg.menu], [librpg.context]) are not part of the sources at hand.  A
    controller is the handle of one dialog on screen and reports completion
    through [is_done]; once done it stays done.  The context stack is the list
    of the controllers stacked so far, oldest first, and a controller is
    referred to by its place in it: the queue and the stack share the object. *)
Record MenuController : Type := mkController {
  controlled : Dialog;
  done : bool
}.

Definition ContextStack : Type := list MenuController.

Definition is_done (stack : ContextStack) (c : nat) : bool :=
  match nth_error stack c with
  | Some ctl => done ctl
  | None => false
  end.

(** The player closes the dialog of controller [c] (or its pages run out). *)
Fixpoint finish (stack : ContextStack) (c : nat) : ContextStack :=
  match stack, c with
  | [], _ => []
  | ctl :: rest, O => mkController (controlled ctl) true :: rest
  | ctl :: rest, S c' => ctl :: finish rest c'
  end.

(** The queue object: [self.current], [self.controller], [self.queue]. *)
Record t : Type := mk {
  current : option Dialog;
  controller : option nat;
  queue : list Dialog
}.

(** The queue together with the context stack of [get_context_stack()]. *)
Record World : Type := mkWorld {
  self : t;
  context_stack : ContextStack
}.

Definition __init__ : t := mk None None [].

Definition is_busy (self : t) : bool :=
  match current self with
  | Some d => block_movement d
  | None => false
  end.

Definition is_active (self : t) : bool :=
  match current self with
  | Some _ => true
  | None => false
  end.

Definition pop_next (w : World) : World :=
  match current (self w), queue (self w) with
  | None, d :: rest =>
      let c := List.length (context_stack w) in
      mkWorld (mk (Some d) (Some c) rest)
              (context_stack w ++ [mkController d false])
  | _, _ => w
  end.

Definition push (w : World) (message : Dialog) : World :=
  mkWorld (mk (current (self w)) (controller (self w)) (queue (self w) ++ [message]))
          (context_stack w).

Definition update (w : World) : World * bool :=
  let w :=
    match controller (self w) with
    | Some c =>
        if is_done (context_stack w) c then
          mkWorld (mk None (controller (self w)) (queue (self w))) (context_stack w)
        else w
    | None => w
    end in
  (pop_next w, false).

(** What can happen between two looks at the queue: the host pushes a dialog,
    the host ticks, or the dialog of some stacked controller finishes. *)
Inductive Op : Type :=
| Push (message : Dialog)
| Update
| Finish (c : nat).

Definition step (w : World) (op : Op) : World :=
  match op with
  | Push message => push w message
  | Update => fst (update w)
  | Finish c => mkWorld (self w) (finish (context_stack w) c)
  end.

Definition run (ops : list Op) (w : World) : World := fold_left step ops w.

Definition start : World := mkWorld __init__ [].

(** The dialogs pushed by a sequence of operations, in push order. *)
Fixpoint pushed (ops : list Op) : list Dialog :=
  match ops with
  | [] => []
  | Push message :: rest => message :: pushed rest
  | _ :: rest => pushed rest
  end.

(** The dialogs that became active so far, in the order they did. *)
Definition activated (w : World) : list Dialog := map controlled (context_stack w).

(** The controllers whose dialog is still on screen: stacked and not done. *)
Definition running (w : World) : list MenuController :=
  filter (fun ctl => negb (done ctl)) (context_stack w).

(** What holds of the queue and the stack between operations: every stacked
    controller but the newest is done, the newest is the queue's controller,
    and [current] is its dialog until the queue has seen it done. *)
Definition invariant (w : World) : Prop :=
  (context_stack w = [] /\ current (self w) = None /\ controller (self w) = None)
  \/ exists old last,
       context_stack w = old ++ [last]
       /\ Forall (fun ctl => done ctl = true) old
       /\ controller (self w) = Some (List.length old)
       /\ (current (self w) = Some (controlled last)
           \/ (current (self w) = None /\ done last = true)).

End MessageQueue.

(** ** Words *)

Fixpoint no_space (s : string) : bool :=
  match s with
  | EmptyString => true
  | String c s' => negb (isspace c) && no_space s'
  end.

(** A word: a non-empty string without a space character. *)
Definition is_word (s : string) : bool := negb (is_empty s) && no_space s.

(** The words of a list of lines, line after line. *)
Definition words_of (lines : list Line) : list string :=
  flat_map (fun l => split (snd l)) lines.

(** A line fits when the font measures its text no wider than the box. *)
Definition fits (box_width : Z) (font : Font) (l : Line) : Prop :=
  fst (size font (snd l)) <= box_width.

(** [grows box_width font w ws cur]: starting a line with the word [w] and
    appending the words [ws] one at a time, no projected line overflows, and
    the line reads [cur]. *)
Inductive grows (box_width : Z) (font : Font)
  : string -> list string -> string -> Prop :=
| grows_start (w : string) :
    is_word w = true -> grows box_width font w [] w
| grows_append (w : string) (ws : list string) (cur word : string) :
    grows box_width font w ws cur ->
    is_word word = true ->
    (fst (size font (cur ++ " " ++ word)) >? box_width) = false ->
    grows box_width font w (ws ++ [word]) (cur ++ " " ++ word).

(** The text of a line grew from its first word. *)
Definition grown (box_width : Z) (font : Font) (l : Line) : Prop :=
  exists w ws, grows box_width font w ws (snd l).

(** A blank text: every character is a space. *)
Fixpoint all_space (s : string) : bool :=
  match s with
  | EmptyString => true
  | String c s' => isspace c && all_space s'
  end.

(** The height a box takes on screen: the heights of its lines and one
    [line_spacing] between each two consecutive lines. *)
Definition box_total (line_spacing : Z) (box : Box) : Z :=
  sum_heights box + (Z.of_nat (List.length box) - 1) * line_spacing.

(** A box within the budget, and the one kind of box that is not. *)
Definition within (box_height line_spacing : Z) (box : Box) : Prop :=
  box_total line_spacing box <= box_height.

Definition oversized (box_height : Z) (box : Box) : Prop :=
  exists l, box = [l] /\ fst l > box_height.

(** A font whose glyphs are one pixel wide and whose height is the length of
    the text: the smallest font with a text-dependent height. *)
Definition len_font : Font :=
  mkFont (fun s => (Z.of_nat (String.length s), Z.of_nat (String.length s))).

(** A font with glyphs 8 pixels wide and lines 16 pixels high. *)
Definition fixed_font : Font :=
  mkFont (fun s => (8 * Z.of_nat (String.length s), 16)).

(** A small configuration around it: a 200 by 120 screen, event type 2 for
    key-down, keys 13 and 32 to confirm, keys 276 and 275 for left and right. *)
Definition demo_env : Env :=
  mkEnv 2
        (mkDialogConfig 5 12 2 4)
        (mkGraphicsConfig 200 120)
        (mkGameConfig [13; 32] [276] [275])
        (mkMenuConfig (mkTheme (fun _ => fixed_font))).

(** The same configuration on a screen 40 pixels high. *)
Definition tiny_env : Env :=
  mkEnv 2
        (mkDialogConfig 5 12 2 4)
        (mkGraphicsConfig 200 40)
        (mkGameConfig [13; 32] [276] [275])
        (mkMenuConfig (mkTheme (fun _ => fixed_font))).

(** A bare message dialog with the given text, to tell queued dialogs apart. *)
Definition note (text : string) : Dialog :=
  Message (MessageDialog.mk text true (Menu.__init__ demo_env 0 0 0 0 (0, 0, 0, 0))).

(** The two-page dialog of the configuration above. *)
Definition demo_multi : result MultiMessageDialog.t :=
  Eval vm_compute in
    MultiMessageDialog.__init__ demo_env
      "The quick brown fox jumps over the lazy dog and runs far away" true.

(** A dialog of any class after a sequence of events, each handled by its
    [process_event]. *)
Definition feed_dialog (env : Env) (d : Dialog) (events : list Event) : Dialog :=
  fold_left (fun d event => fst (process_event env d event)) events d.

(** The dialogs of one page: every class but [MultiMessageDialog]. *)
Definition single_page (d : Dialog) : bool :=
  match d with
  | Multi _ => false
  | _ => true
  end.

(** The elastic dialog of the same text. *)
Definition demo_elastic : result ElasticMessageDialog.t :=
  Eval vm_compute in
    ElasticMessageDialog.__init__ demo_env
      "The quick brown fox jumps over the lazy dog and runs far away" true.

(** ** Notions for the properties of the layout *)

(** [chain R l]: [R] holds between each element of [l] and the next one. *)
Fixpoint chain {A : Type} (R : A -> A -> Prop) (l : list A) : Prop :=
  match l with
  | a :: rest =>
      match rest with
      | b :: _ => R a b /\ chain R rest
      | [] => True
      end
  | [] => True
  end.

(** The first word of [l2] did not fit at the end of [l1]. *)
Definition overflows (box_width : Z) (font : Font) (l1 l2 : Line) : Prop :=
  exists w ws,
    split (snd l2) = w :: ws
    /\ fst (size font (snd l1 ++ " " ++ w)) > box_width.

(** The height of a line is a height the font measured on some text. *)
Definition measured (font : Font) (l : Line) : Prop :=
  exists s, fst l = snd (size font s).

(** The first line of [b2] did not fit under [b1]. *)
Definition box_overflows (box_height line_spacing : Z) (b1 b2 : Box) : Prop :=
  exists l rest,
    b2 = l :: rest
    /\ box_total line_spacing b1 + fst l + line_spacing > box_height.

(** The texts of the labels of a panel, top to bottom. *)
Definition panel_texts (panel : Panel) : list string :=
  map (fun placed => label_text (fst placed)) (panel_widgets panel).

(** A label at [pos] showing a line of height [h] lies inside a panel of the
    given height, a border away from its top and from its bottom. *)
Definition inside (env : Env) (panel_height : Z) (pos : Position) (h : Z) : Prop :=
  border_width (cfg env) <= snd pos
  /\ snd pos + h <= panel_height - border_width (cfg env).

(** The menu a dialog is, whatever its class. *)
Definition dialog_menu (d : Dialog) : Menu.t :=
  match d with
  | Message d => MessageDialog.menu d
  | Elastic d => ElasticMessageDialog.menu d
  | Multi d => MultiMessageDialog.menu d
  | Choice d => ChoiceDialog.menu d
  end.

(** * Properties *)

Example split_ex : split "  The quick	brown fox " = ["The"; "quick"; "brown"; "fox"].
Proof. reflexivity. Qed.

Example build_lines_ex :
  build_lines "The quick brown fox jumps over the lazy dog" 15 len_font
  = Ok [(19, "The quick brown"); (18, "fox jumps over"); (12, "the lazy dog")].
Proof. reflexivity. Qed.

(** ** Strings and [split] *)

Section Split.

Local Open Scope string_scope.

Lemma append_empty_r (s : string) : s ++ "" = s.
Proof. induction s as [|c s IH]; simpl; [reflexivity | now rewrite IH]. Qed.

Lemma append_assoc (a b c : string) : (a ++ b) ++ c = a ++ (b ++ c).
Proof. induction a as [|x a IH]; simpl; [reflexivity | now rewrite IH]. Qed.

Lemma is_empty_snoc (s : string) (c : ascii) : is_empty (s ++ String c "") = false.
Proof. destruct s; reflexivity. Qed.

Lemma no_space_app (a b : string) :
  no_space (a ++ b) = no_space a && no_space b.
Proof.
  induction a as [|x a IH]; simpl; [reflexivity|].
  now rewrite IH, andb_assoc.
Qed.

Lemma is_word_snoc (cur : string) (c : ascii) :
  cur = "" \/ is_word cur = true -> isspace c = false ->
  is_word (cur ++ String c "") = true.
Proof.
  intros Hcur Hc. unfold is_word. rewrite is_empty_snoc, no_space_app. simpl.
  rewrite Hc. simpl. destruct Hcur as [-> | Hw]; [reflexivity|].
  unfold is_word in Hw. apply andb_true_iff in Hw as [_ ->]. reflexivity.
Qed.

(** Reading a run of non-space characters only extends the current word. *)
Lemma split_from_no_space (v cur s : string) :
  no_space v = true -> split_from cur (v ++ s) = split_from (cur ++ v) s.
Proof.
  revert cur. induction v as [|c v IH]; intros cur Hv; simpl in *.
  - now rewrite append_empty_r.
  - apply andb_true_iff in Hv as [Hc Hv]. apply negb_true_iff in Hc.
    rewrite Hc, (IH _ Hv), append_assoc. reflexivity.
Qed.

(** A space between two texts separates their words. *)
Lemma split_from_space (s1 s2 cur : string) :
  split_from cur (s1 ++ " " ++ s2) = (split_from cur s1 ++ split s2)%list.
Proof.
  revert cur. induction s1 as [|c s1 IH]; intros cur; simpl.
  - destruct (is_empty cur); reflexivity.
  - destruct (isspace c).
    + destruct (is_empty cur); simpl; now rewrite IH.
    + apply IH.
Qed.

Lemma split_word (w : string) : is_word w = true -> split w = [w].
Proof.
  intros Hw. unfold is_word in Hw. apply andb_true_iff in Hw as [Hne Hns].
  unfold split. rewrite <- (append_empty_r w) at 1.
  rewrite (split_from_no_space _ _ _ Hns). simpl.
  destruct w; [discriminate | reflexivity].
Qed.

Lemma split_from_words (s cur : string) :
  cur = "" \/ is_word cur = true ->
  Forall (fun w => is_word w = true) (split_from cur s).
Proof.
  revert cur. induction s as [|c s IH]; intros cur Hcur; simpl.
  - destruct Hcur as [-> | Hw]; simpl; [constructor|].
    destruct (is_empty cur); [constructor | repeat constructor; exact Hw].
  - destruct (isspace c) eqn:Hc.
    + destruct Hcur as [-> | Hw]; simpl; [apply IH; now left|].
      destruct (is_empty cur); [apply IH; now left|].
      constructor; [exact Hw | apply IH; now left].
    + apply IH. right. now apply is_word_snoc.
Qed.

(** Every element of [text.split()] is a word. *)
Lemma split_words (text : string) : Forall (fun w => is_word w = true) (split text).
Proof. apply split_from_words. now left. Qed.

(** Splitting the text of [cur_line + ' ' + word]. *)
Lemma split_projected (cur_line word : string) :
  is_word word = true ->
  split (cur_line ++ " " ++ word) = (split cur_line ++ [word])%list.
Proof.
  intros Hw. unfold split at 1. rewrite split_from_space.
  now rewrite (split_word _ Hw).
Qed.

Lemma split_join (ws : list string) :
  Forall (fun w => is_word w = true) ws -> split (join " " ws) = ws.
Proof.
  induction 1 as [|w ws Hw Hws IH]; [reflexivity|].
  destruct ws as [|w' ws]; [now apply split_word|].
  change (join " " (w :: w' :: ws)) with (w ++ " " ++ join " " (w' :: ws)).
  unfold split. rewrite split_from_space. fold (split w).
  now rewrite (split_word _ Hw), IH.
Qed.

End Split.

(** ** [build_lines] *)

Lemma words_of_app (a b : list Line) : words_of (a ++ b) = words_of a ++ words_of b.
Proof. unfold words_of. now rewrite flat_map_app. Qed.

Lemma words_of_single (h : Z) (t : string) : words_of [(h, t)] = split t.
Proof. unfold words_of. simpl. now rewrite app_nil_r. Qed.

Section BuildLinesLoop.

Variables (box_width : Z) (font : Font).

Lemma build_lines_loop_words (words : list string) :
  Forall (fun w => is_word w = true) words ->
  forall lines cur_line height,
    words_of (build_lines_loop box_width font words lines cur_line height)
    = words_of lines ++ split cur_line ++ words.
Proof.
  induction 1 as [|word rest Hw Hrest IH]; intros lines cur_line height; cbn [build_lines_loop].
  - now rewrite words_of_app, words_of_single, app_nil_r.
  - destruct (size font (cur_line ++ " " ++ word)) as [width height'].
    destruct (width >? box_width).
    + rewrite IH, words_of_app, words_of_single, (split_word _ Hw), <- app_assoc.
      reflexivity.
    + rewrite IH, (split_projected _ _ Hw), <- app_assoc. reflexivity.
Qed.

Lemma build_lines_loop_fits (words : list string) :
  Forall (fun w => fst (size font w) <= box_width) words ->
  forall lines cur_line height,
    Forall (fits box_width font) lines ->
    fst (size font cur_line) <= box_width ->
    Forall (fits box_width font)
      (build_lines_loop box_width font words lines cur_line height).
Proof.
  induction 1 as [|word rest Hw Hrest IH]; intros lines cur_line height Hl Hc; cbn [build_lines_loop].
  - apply Forall_app. split; [exact Hl | repeat constructor; exact Hc].
  - destruct (size font (cur_line ++ " " ++ word)) as [width height'] eqn:E.
    destruct (width >? box_width) eqn:G.
    + apply IH; [|exact Hw].
      apply Forall_app. split; [exact Hl | repeat constructor; exact Hc].
    + apply IH; [exact Hl|]. rewrite E. simpl. lia.
Qed.

Lemma build_lines_loop_prefix (words : list string) :
  forall lines cur_line height,
  exists more,
    build_lines_loop box_width font words lines cur_line height = lines ++ more
    /\ more <> [].
Proof.
  induction words as [|word rest IH]; intros lines cur_line height; cbn [build_lines_loop].
  - eexists. split; [reflexivity | discriminate].
  - destruct (size font (cur_line ++ " " ++ word)) as [width height'].
    destruct (width >? box_width).
    + destruct (IH (lines ++ [(height', cur_line)]) word height') as (more & -> & _).
      exists ((height', cur_line) :: more). rewrite <- app_assoc.
      split; [reflexivity | discriminate].
    + apply IH.
Qed.

Lemma grows_split (w : string) (ws : list string) (cur : string) :
  grows box_width font w ws cur -> split cur = w :: ws.
Proof.
  induction 1 as [w Hw | w ws cur word _ IH Hword _].
  - now apply split_word.
  - now rewrite (split_projected _ _ Hword), IH.
Qed.

(** Feeding the loop the words a line grew from rebuilds that line, and the
    height carried along is the height of the line's text. *)
Lemma grows_replay (w : string) (ws : list string) (cur : string) :
  grows box_width font w ws cur ->
  forall more lines,
    build_lines_loop box_width font (ws ++ more) lines w (snd (size font w))
    = build_lines_loop box_width font more lines cur (snd (size font cur)).
Proof.
  induction 1 as [w Hw | w ws cur word _ IH Hword Hfit]; intros more lines.
  - reflexivity.
  - rewrite <- app_assoc. rewrite IH. cbn [build_lines_loop app].
    destruct (size font (cur ++ " " ++ word)) as [width height'] eqn:E.
    simpl in Hfit. rewrite Hfit. reflexivity.
Qed.

Lemma build_lines_loop_grown (words : list string) :
  Forall (fun w => is_word w = true) words ->
  forall lines cur_line height w ws,
    Forall (grown box_width font) lines ->
    grows box_width font w ws cur_line ->
    Forall (grown box_width font) (build_lines_loop box_width font words lines cur_line height).
Proof.
  induction 1 as [|word rest Hw Hrest IH]; intros lines cur_line height w ws Hl Hc; cbn [build_lines_loop].
  - apply Forall_app. split; [exact Hl|]. repeat constructor. now exists w, ws.
  - destruct (size font (cur_line ++ " " ++ word)) as [width height'] eqn:E.
    destruct (width >? box_width) eqn:G.
    + apply (IH _ _ _ word []); [|now constructor].
      apply Forall_app. split; [exact Hl|]. repeat constructor. now exists w, ws.
    + apply (IH _ _ _ w (ws ++ [word])); [exact Hl|].
      constructor; [exact Hc | exact Hw |]. now rewrite E.
Qed.

End BuildLinesLoop.

(** One step of the loop on an overflowing word: the line that is closed gets
    the height measured on the projected line, and so does the loop variable
    the next line starts with. *)
Lemma build_lines_loop_overflow (box_width : Z) (font : Font) (word : string)
  (rest : list string) (lines : list Line) (cur_line : string) (height : Z) :
  fst (size font (cur_line ++ " " ++ word)) > box_width ->
  build_lines_loop box_width font (word :: rest) lines cur_line height
  = build_lines_loop box_width font rest
      (lines ++ [(snd (size font (cur_line ++ " " ++ word)), cur_line)])
      word (snd (size font (cur_line ++ " " ++ word))).
Proof.
  intros Hover. cbn [build_lines_loop].
  destruct (size font (cur_line ++ " " ++ word)) as [width height'].
  simpl in *. apply Z.gtb_gt in Hover. now rewrite Hover.
Qed.

(** A text has no word exactly when it is blank. *)
Lemma split_from_nil (s cur : string) :
  split_from cur s = [] <-> is_empty cur = true /\ all_space s = true.
Proof.
  revert cur. induction s as [|c s IH]; intros cur; simpl.
  - destruct (is_empty cur); split; try tauto; try discriminate.
    intros [H _]; discriminate.
  - destruct (isspace c); simpl.
    + destruct (is_empty cur) eqn:E.
      * rewrite IH. simpl. tauto.
      * split; [discriminate | intros [H _]; discriminate].
    + rewrite IH, is_empty_snoc. split; intros [H1 H2]; discriminate.
Qed.

Lemma split_nil (text : string) : split text = [] <-> all_space text = true.
Proof. unfold split. rewrite split_from_nil. simpl. tauto. Qed.

(** C1 (amended): for every text with at least one word and every box width no
    smaller than the measured width of each word of the text, [build_lines]
    returns lines each of whose text is measured no wider than the box, and the
    words of the lines, taken line after line, are the words of the text. *)
Theorem build_lines_wraps (text : string) (box_width : Z) (font : Font) :
  split text <> [] ->
  (forall w, In w (split text) -> fst (size font w) <= box_width) ->
  exists lines,
    build_lines text box_width font = Ok lines
    /\ Forall (fits box_width font) lines
    /\ words_of lines = split text.
Proof.
  intros Hne Hwide. unfold build_lines.
  pose proof (split_words text) as Hwords.
  destruct (split text) as [|word0 rest]; [congruence|].
  destruct (size font word0) as [w0 height] eqn:E.
  eexists. split; [reflexivity|]. split.
  - apply build_lines_loop_fits.
    + apply Forall_forall. intros w Hw. apply Hwide. now right.
    + constructor.
    + apply Hwide. now left.
  - inversion Hwords as [|? ? Hw0 Hrest]; subst.
    rewrite build_lines_loop_words by exact Hrest.
    now rewrite (split_word _ Hw0).
Qed.

Lemma build_lines_wraps_witness :
  exists lines,
    build_lines "The quick brown fox jumps over the lazy dog" 15 len_font = Ok lines
    /\ Forall (fits 15 len_font) lines
    /\ words_of lines = split "The quick brown fox jumps over the lazy dog".
Proof.
  apply (build_lines_wraps "The quick brown fox jumps over the lazy dog" 15 len_font).
  - vm_compute. discriminate.
  - intros w Hw. vm_compute in Hw.
    repeat (destruct Hw as [<- | Hw]; [vm_compute; discriminate|]).
    destruct Hw.
Defined.

(** C1 as stated fails on a text that is not empty but blank: a single space
    has no word, so every width bounds its widest word, and [build_lines]
    raises [IndexError] at [words[0]] instead of returning lines. *)
Lemma build_lines_blank_text :
  " " <> ""
  /\ (forall w, In w (split " ") -> fst (size len_font w) <= 10)
  /\ build_lines " " 10 len_font = Raise IndexError
  /\ ~ (exists lines, build_lines " " 10 len_font = Ok lines).
Proof.
  split; [discriminate|]. split; [intros w []|]. split; [reflexivity|].
  intros [lines H]. discriminate H.
Qed.

(** C2: the code at the text "a b", box width 1, with a font whose height is
    the length of the text.  The word "b" overflows; the line "a" is closed
    with the height 3 of the projected line "a b", not the height 1 of its own
    text, and the last line "b" carries the same 3. *)
Theorem build_lines_overflow_height :
  build_lines "a b" 1 len_font = Ok [(3, "a"); (3, "b")]
  /\ snd (size len_font "a b") = 3
  /\ snd (size len_font "a") = 1
  /\ snd (size len_font "b") = 1.
Proof. repeat split. Qed.

(** X20: a line produced by [build_lines], wrapped again at the same width with
    the same font, comes back as one line with the same text; its height is
    the measured height of that text. *)
Theorem build_lines_idempotent (text : string) (box_width : Z) (font : Font)
  (lines : list Line) (l : Line) :
  build_lines text box_width font = Ok lines ->
  In l lines ->
  build_lines (snd l) box_width font = Ok [(snd (size font (snd l)), snd l)].
Proof.
  intros Hbuild Hin.
  assert (Hgrown : Forall (grown box_width font) lines).
  { unfold build_lines in Hbuild. pose proof (split_words text) as Hwords.
    destruct (split text) as [|word0 rest]; [discriminate|].
    destruct (size font word0) as [w0 height].
    injection Hbuild as <-.
    inversion Hwords as [|? ? Hw0 Hrest]; subst.
    apply (build_lines_loop_grown _ _ _ Hrest _ _ _ word0 []);
      [constructor | now constructor]. }
  rewrite Forall_forall in Hgrown.
  destruct (Hgrown l Hin) as (w & ws & Hg).
  unfold build_lines. rewrite (grows_split _ _ _ _ _ Hg).
  destruct (size font w) as [w0 height] eqn:E.
  replace height with (snd (size font w)) by now rewrite E.
  rewrite <- (app_nil_r ws), (grows_replay _ _ _ _ _ Hg). reflexivity.
Qed.

Lemma build_lines_idempotent_witness :
  build_lines "The quick brown" 15 len_font = Ok [(15, "The quick brown")].
Proof.
  apply (build_lines_idempotent "The quick brown fox jumps over the lazy dog" 15 len_font
           [(19, "The quick brown"); (18, "fox jumps over"); (12, "the lazy dog")]
           (19, "The quick brown")).
  - reflexivity.
  - simpl. left. reflexivity.
Defined.

(** C8: the code at the line [(3, "a")] that [build_lines] returns for the text
    "a b", box width 1 and the font whose height is the length of the text.
    Wrapped again at the same width with the same font, the text of that line
    gives the one line [(1, "a")]: the same text, but not the same line,
    because the height 3 recorded with it was measured on the projected line
    "a b" (the defect of C2) and the height of "a" itself is 1. *)
Theorem build_lines_rewrap_height :
  build_lines "a b" 1 len_font = Ok [(3, "a"); (3, "b")]
  /\ build_lines (snd (3, "a")) 1 len_font = Ok [(1, "a")]
  /\ build_lines (snd (3, "a")) 1 len_font <> Ok [(3, "a")]
  /\ snd (size len_font "a") = 1
  /\ snd (size len_font "a b") = 3.
Proof.
  split; [reflexivity|]. split; [reflexivity|]. split; [|split; reflexivity].
  intros H. vm_compute in H. discriminate H.
Qed.

(** C9: [build_lines] raises [IndexError] on the empty text (and on any text
    without a word); on a text with at least one word it returns, and the list
    of lines it returns is not empty. *)
Theorem build_lines_total (box_width : Z) (font : Font) :
  build_lines "" box_width font = Raise IndexError
  /\ (forall text, split text = [] ->
        build_lines text box_width font = Raise IndexError)
  /\ (forall text, split text <> [] ->
        exists lines, build_lines text box_width font = Ok lines /\ lines <> []).
Proof.
  split; [reflexivity|]. split; intros text H; unfold build_lines.
  - now rewrite H.
  - destruct (split text) as [|word0 rest]; [congruence|].
    destruct (size font word0) as [w0 height].
    destruct (build_lines_loop_prefix box_width font rest [] word0 height)
      as (more & -> & Hmore).
    eexists. split; [reflexivity | exact Hmore].
Qed.

Lemma build_lines_total_witness :
  exists lines, build_lines "a b" 1 len_font = Ok lines /\ lines <> [].
Proof.
  apply (proj2 (proj2 (build_lines_total 1 len_font)) "a b").
  vm_compute. discriminate.
Defined.

(** ** [split_boxes] *)

Lemma fold_left_add_from (l : list Z) (a : Z) :
  fold_left Z.add l a = a + fold_left Z.add l 0.
Proof.
  revert a. induction l as [|x l IH]; intros a; simpl; [lia|].
  rewrite (IH (a + x)), (IH x). lia.
Qed.

Lemma sum_heights_snoc (box : list Line) (l : Line) :
  sum_heights (box ++ [l]) = sum_heights box + fst l.
Proof.
  unfold sum_heights. rewrite map_app, fold_left_app. reflexivity.
Qed.

Lemma box_total_single (line_spacing : Z) (l : Line) :
  box_total line_spacing [l] = fst l.
Proof. unfold box_total, sum_heights. simpl. lia. Qed.

Lemma box_total_snoc (line_spacing : Z) (box : Box) (l : Line) :
  box_total line_spacing (box ++ [l])
  = box_total line_spacing box + (fst l + line_spacing).
Proof.
  unfold box_total. rewrite sum_heights_snoc, length_app, Nat2Z.inj_add.
  simpl. ring.
Qed.

Section SplitBoxesLoop.

Variables (box_height line_spacing : Z).


Lemma split_boxes_loop_spec (lines : list Line) :
  forall boxes box_cur_height box,
    box <> [] ->
    box_cur_height = box_total line_spacing box ->
    exists more,
      split_boxes_loop box_height line_spacing lines boxes box_cur_height box
      = boxes ++ more
      /\ more <> []
      /\ List.concat more = box ++ lines
      /\ Forall (fun b => b <> []) more
      /\ (within box_height line_spacing box \/ oversized box_height box ->
          Forall (fun b => within box_height line_spacing b \/ oversized box_height b) more)
      /\ (within box_height line_spacing box ->
          Forall (fun l => fst l <= box_height) lines ->
          Forall (within box_height line_spacing) more).
Proof.
  induction lines as [|line rest IH]; intros boxes cur box Hne Hcur;
    cbn [split_boxes_loop].
  - exists [box]. destruct box as [|l0 box]; [congruence|].
    repeat split; try discriminate.
    + repeat constructor. discriminate.
    + intros H. constructor; [exact H | constructor].
    + intros H _. constructor; [exact H | constructor].
  - destruct (cur + fst line + line_spacing >? box_height) eqn:G.
    + assert (Hsingle : fst line = box_total line_spacing [line])
        by now rewrite box_total_single.
      assert (Hline : [line] <> []) by discriminate.
      destruct (IH (boxes ++ [box]) (fst line) [line] Hline Hsingle) as
        (more & Heq & _ & Hcat & Hnes & Hok & Hin).
      exists (box :: more).
      split; [rewrite <- app_assoc in Heq; exact Heq|]. repeat split.
      * discriminate.
      * simpl. rewrite Hcat. reflexivity.
      * constructor; assumption.
      * intros H. constructor; [exact H|]. apply Hok.
        destruct (Z_le_gt_dec (fst line) box_height) as [Hle | Hgt].
        -- left. unfold within. now rewrite box_total_single.
        -- right. now exists line.
      * intros H Hall. inversion Hall; subst.
        constructor; [exact H|]. apply Hin; [|assumption].
        unfold within. now rewrite box_total_single.
    + assert (Hfit : within box_height line_spacing (box ++ [line])).
      { unfold within. rewrite box_total_snoc, <- Hcur.
        rewrite Z.gtb_ltb in G. apply Z.ltb_ge in G. lia. }
      assert (Hsnoc : box ++ [line] <> []) by (destruct box; discriminate).
      assert (Htotal : cur + (fst line + line_spacing)
                       = box_total line_spacing (box ++ [line]))
        by (rewrite box_total_snoc; now rewrite Hcur).
      destruct (IH boxes (cur + (fst line + line_spacing)) (box ++ [line])
                  Hsnoc Htotal) as (more & Heq & Hmore & Hcat & Hnes & Hok & Hin).
      exists more. split; [f_equal; exact Heq|]. repeat split; try assumption.
        -- rewrite Hcat. now rewrite <- app_assoc.
        -- intros _. apply Hok. now left.
        -- intros _ Hall. inversion Hall; subst. now apply Hin.
Qed.

End SplitBoxesLoop.

(** C3: for a non-empty list of lines, [split_boxes] returns boxes whose
    concatenation is the list of lines; no box is empty; each box is within
    the height budget or is a single line taller than the budget; and when no
    line is taller than the budget, every box is within it. *)
Theorem split_boxes_paginates (lines : list Line) (box_height line_spacing : Z) :
  lines <> [] ->
  exists boxes,
    split_boxes lines box_height line_spacing = Ok boxes
    /\ List.concat boxes = lines
    /\ Forall (fun box => box <> []) boxes
    /\ Forall (fun box => within box_height line_spacing box
                          \/ oversized box_height box) boxes
    /\ ((forall l, In l lines -> fst l <= box_height) ->
        Forall (within box_height line_spacing) boxes).
Proof.
  intros Hne. destruct lines as [|line0 rest]; [congruence|]. unfold split_boxes.
  assert (Hsingle : fst line0 = box_total line_spacing [line0])
    by now rewrite box_total_single.
  assert (Hline : [line0] <> []) by discriminate.
  destruct (split_boxes_loop_spec box_height line_spacing rest [] (fst line0) [line0]
              Hline Hsingle) as (more & Heq & _ & Hcat & Hnes & Hok & Hin).
  exists more. split; [f_equal; exact Heq|]. repeat split; try assumption.
  - apply Hok. destruct (Z_le_gt_dec (fst line0) box_height) as [Hle | Hgt].
    + left. unfold within. now rewrite box_total_single.
    + right. now exists line0.
  - intros Hall. apply Hin.
    + unfold within. rewrite box_total_single. apply Hall. now left.
    + apply Forall_forall. intros l Hl. apply Hall. now right.
Qed.

Lemma split_boxes_paginates_witness :
  exists boxes,
    split_boxes [(10, "a"); (10, "b"); (30, "c"); (5, "d")] 22 2 = Ok boxes
    /\ List.concat boxes = [(10, "a"); (10, "b"); (30, "c"); (5, "d")]
    /\ Forall (fun box => box <> []) boxes
    /\ Forall (fun box => within 22 2 box \/ oversized 22 box) boxes
    /\ ((forall l, In l [(10, "a"); (10, "b"); (30, "c"); (5, "d")] -> fst l <= 22) ->
        Forall (within 22 2) boxes).
Proof.
  apply (split_boxes_paginates [(10, "a"); (10, "b"); (30, "c"); (5, "d")] 22 2).
  discriminate.
Defined.

Example split_boxes_ex :
  split_boxes [(10, "a"); (10, "b"); (30, "c"); (5, "d")] 22 2
  = Ok [[(10, "a"); (10, "b")]; [(30, "c")]; [(5, "d")]].
Proof. reflexivity. Qed.

(** C10: [split_boxes] raises [IndexError] on the empty list of lines; on a
    non-empty list it returns, and the list of boxes it returns is not empty. *)
Theorem split_boxes_total (box_height line_spacing : Z) :
  split_boxes [] box_height line_spacing = Raise IndexError
  /\ (forall lines, lines <> [] ->
        exists boxes,
          split_boxes lines box_height line_spacing = Ok boxes /\ boxes <> []).
Proof.
  split; [reflexivity|]. intros lines Hne.
  destruct lines as [|line0 rest]; [congruence|]. unfold split_boxes.
  assert (Hsingle : fst line0 = box_total line_spacing [line0])
    by now rewrite box_total_single.
  assert (Hline : [line0] <> []) by discriminate.
  destruct (split_boxes_loop_spec box_height line_spacing rest [] (fst line0) [line0]
              Hline Hsingle) as (more & Heq & Hmore & _).
  exists more. split; [f_equal; exact Heq | exact Hmore].
Qed.

Lemma split_boxes_total_witness :
  exists boxes, split_boxes [(10, "a"); (10, "b")] 15 2 = Ok boxes /\ boxes <> [].
Proof.
  apply (proj2 (split_boxes_total 15 2) [(10, "a"); (10, "b")]). discriminate.
Defined.

(** ** Dialog events *)

Lemma key_in_spec (k : Z) (keys : list Z) : key_in k keys = true <-> In k keys.
Proof.
  unfold key_in. rewrite existsb_exists. split.
  - intros (x & Hx & Heq). apply Z.eqb_eq in Heq. now subst.
  - intros H. exists k. split; [exact H | apply Z.eqb_refl].
Qed.

(** C7: whatever the event, [process_event] leaves the dialog's
    [block_movement] flag as it was and returns that flag, with one exception:
    a [ChoiceDialog] given a key-down event whose key is a left or a right key
    returns [True]. *)
Theorem process_event_block_movement (env : Env) (d : Dialog) (event : Event) :
  block_movement (fst (process_event env d event)) = block_movement d
  /\ snd (process_event env d event)
     = match d with
       | Choice _ =>
           if (type event =? KEYDOWN env)
              && (key_in (key event) (key_left (m_cfg env))
                  || key_in (key event) (key_right (m_cfg env)))
           then true
           else block_movement d
       | _ => block_movement d
       end.
Proof.
  destruct d as [d | d | d | d]; simpl.
  - unfold MessageDialog.process_event.
    destruct (type event =? KEYDOWN env);
      [destruct (key_in (key event) (key_action (m_cfg env)))|]; split; reflexivity.
  - unfold ElasticMessageDialog.process_event.
    destruct (type event =? KEYDOWN env);
      [destruct (key_in (key event) (key_action (m_cfg env)))|]; split; reflexivity.
  - unfold MultiMessageDialog.process_event, MultiMessageDialog.advance_panel.
    destruct (type event =? KEYDOWN env);
      [destruct (key_in (key event) (key_action (m_cfg env)))|];
      try (split; reflexivity).
    destruct (MultiMessageDialog.current_panel d) eqn:Ecur;
      destruct (MultiMessageDialog.panels d) eqn:Epan;
      cbn; rewrite ?Ecur; split; reflexivity.
  - unfold ChoiceDialog.process_event.
    destruct (type event =? KEYDOWN env); [|split; reflexivity].
    destruct (key_in (key event) (key_action (m_cfg env)));
      destruct (key_in (key event) (key_left (m_cfg env))
                || key_in (key event) (key_right (m_cfg env)));
      split; reflexivity.
Qed.

Example choice_left_key_blocks (d : ChoiceDialog.t) :
  snd (process_event demo_env (Choice d) (mkEvent 2 276)) = true.
Proof. reflexivity. Qed.

(** ** [ElasticMessageDialog] *)

(** The computed height is the height of the lines as one box plus the border
    padding. *)
Lemma compute_box_height_box_total (env : Env) (lines : list Line) :
  ElasticMessageDialog.compute_box_height env lines
  = box_total (line_spacing (cfg env)) lines + 4 * border_width (cfg env).
Proof. reflexivity. Qed.

(** C4: once the text is wrapped, constructing an [ElasticMessageDialog] whose
    computed box height is the screen height or more raises [AssertionError]
    and yields no dialog; with a computed height strictly below the screen
    height the constructor returns a dialog of that box height. *)
Theorem elastic_height_guard (env : Env) (text : string) (block_movement : bool)
  (lines : list Line) :
  build_lines text
    (screen_width (g_cfg env) - 4 * border_width (cfg env))
    (get_font (configured_theme env) (font_size (cfg env))) = Ok lines ->
  (ElasticMessageDialog.compute_box_height env lines >= screen_height (g_cfg env) ->
   ElasticMessageDialog.__init__ env text block_movement = Raise AssertionError)
  /\ (ElasticMessageDialog.compute_box_height env lines < screen_height (g_cfg env) ->
      exists d,
        ElasticMessageDialog.__init__ env text block_movement = Ok d
        /\ ElasticMessageDialog.box_height d
           = ElasticMessageDialog.compute_box_height env lines)
  /\ (forall d,
        ElasticMessageDialog.__init__ env text block_movement = Ok d ->
        ElasticMessageDialog.compute_box_height env lines < screen_height (g_cfg env)).
Proof.
  intros Hlines. unfold ElasticMessageDialog.__init__. rewrite Hlines.
  cbn [bind].
  destruct (ElasticMessageDialog.compute_box_height env lines
            <? screen_height (g_cfg env)) eqn:G.
  - apply Z.ltb_lt in G. repeat split.
    + intros Hge. lia.
    + intros _.
      destruct (draw_lines env None (border_width (cfg env)) (line_spacing (cfg env))
                  lines _ 0) as [panel y_acc].
      eexists. split; reflexivity.
    + intros _ _. exact G.
  - apply Z.ltb_ge in G. repeat split.
    + intros Hlt. lia.
    + intros d Hd. discriminate Hd.
Qed.

Lemma elastic_height_guard_witness :
  ElasticMessageDialog.__init__ tiny_env
    "The quick brown fox jumps over the lazy dog and runs far away" true
  = Raise AssertionError.
Proof.
  apply (proj1 (elastic_height_guard tiny_env
                  "The quick brown fox jumps over the lazy dog and runs far away" true
                  [(16, "The quick brown fox"); (16, "jumps over the lazy");
                   (16, "dog and runs far away")]
                  ltac:(vm_compute; reflexivity))).
  vm_compute. discriminate.
Defined.

Example elastic_fits_demo_screen :
  match ElasticMessageDialog.__init__ demo_env
          "The quick brown fox jumps over the lazy dog and runs far away" true with
  | Ok d => ElasticMessageDialog.box_height d = 72
  | Raise _ => False
  end.
Proof. vm_compute. reflexivity. Qed.

(** ** [MultiMessageDialog] *)

Lemma skipn_cons_nth {A : Type} (n : nat) (l : list A) (x : A) (r : list A) :
  skipn n l = x :: r -> nth_error l n = Some x /\ skipn (S n) l = r.
Proof.
  revert l. induction n as [|n IH]; intros l H.
  - destruct l; simpl in *; [discriminate|]. injection H as -> ->. now split.
  - destruct l as [|y l]; simpl in H; [discriminate|]. now apply IH.
Qed.

Lemma skipn_nil_length {A : Type} (n : nat) (l : list A) :
  skipn n l = [] -> (List.length l <= n)%nat.
Proof.
  revert l. induction n as [|n IH]; intros l H.
  - simpl in H. subst. simpl. lia.
  - destruct l as [|y l]; simpl in *; [lia|]. apply IH in H. lia.
Qed.

Lemma nth_error_lt {A : Type} (l : list A) (n : nat) (x : A) :
  nth_error l n = Some x -> (n < List.length l)%nat.
Proof. intros H. apply nth_error_Some. congruence. Qed.

Lemma remove_first_single (p : Panel) (pos : Position) :
  Menu.remove_first p [(p, pos)] = [].
Proof. simpl. destruct (panel_eq_dec p p); [reflexivity | congruence]. Qed.

Lemma split_boxes_nonempty (lines : list Line) (box_height line_spacing : Z)
  (boxes : list Box) :
  split_boxes lines box_height line_spacing = Ok boxes -> boxes <> [].
Proof.
  unfold split_boxes. destruct lines as [|line0 rest]; [discriminate|].
  assert (Hsingle : fst line0 = box_total line_spacing [line0])
    by now rewrite box_total_single.
  assert (Hline : [line0] <> []) by discriminate.
  destruct (split_boxes_loop_spec box_height line_spacing rest [] (fst line0) [line0]
              Hline Hsingle) as (more & Heq & Hmore & _).
  intros H. injection H as <-. simpl in Heq. congruence.
Qed.

Section MultiPages.

Variable env : Env.

(** Construction leaves the dialog on its first page. *)
Lemma init_showing (text : string) (bm : bool) (d : MultiMessageDialog.t) :
  MultiMessageDialog.__init__ env text bm = Ok d ->
  pages env d <> [] /\ showing (pages env d) 0 d.
Proof.
  unfold MultiMessageDialog.__init__.
  destruct (build_lines text _ _) as [lines|e]; [|discriminate]. cbn [bind].
  destruct (split_boxes lines _ _) as [boxes|e] eqn:Hboxes; [|discriminate].
  cbn [bind]. apply split_boxes_nonempty in Hboxes.
  destruct boxes as [|box boxes]; [congruence|].
  intros H. injection H as <-. split; [discriminate|].
  eexists. repeat split.
Qed.

Lemma process_event_other (d : MultiMessageDialog.t) (event : Event) :
  is_confirm env event = false ->
  fst (MultiMessageDialog.process_event env d event) = d.
Proof.
  unfold is_confirm, MultiMessageDialog.process_event. intros H.
  destruct (type event =? KEYDOWN env); [|reflexivity].
  simpl in H. now rewrite H.
Qed.

(** A confirm event on page [j] shows page [j + 1] if there is one and closes
    the dialog otherwise. *)
Lemma process_event_confirm (pgs : list Panel) (j : nat) (d : MultiMessageDialog.t)
  (event : Event) :
  showing pgs j d ->
  is_confirm env event = true ->
  (S j < List.length pgs ->
   showing pgs (S j) (fst (MultiMessageDialog.process_event env d event)))%nat
  /\ (S j = List.length pgs ->
      closed_dialog (fst (MultiMessageDialog.process_event env d event))).
Proof.
  intros (p & Hp & Hcur & Hpan & Hwid & Hclosed) Hc.
  unfold is_confirm in Hc. apply andb_true_iff in Hc as [Htype Hkey].
  unfold MultiMessageDialog.process_event, MultiMessageDialog.advance_panel.
  rewrite Htype, Hkey, Hcur. cbn. rewrite !Hpan.
  destruct (skipn (S j) pgs) as [|p' rest] eqn:Hskip; cbn.
  - apply skipn_nil_length in Hskip. split; [lia|].
    intros _. unfold closed_dialog. cbn. rewrite Hwid, remove_first_single.
    repeat split.
  - apply skipn_cons_nth in Hskip as [Hnth Hrest]. split.
    + intros _. exists p'. cbn. rewrite Hwid, remove_first_single.
      repeat split; auto.
    + intros Heq. apply nth_error_lt in Hnth. lia.
Qed.

Lemma feed_cons (d : MultiMessageDialog.t) (event : Event) (events : list Event) :
  feed env d (event :: events)
  = feed env (fst (MultiMessageDialog.process_event env d event)) events.
Proof. reflexivity. Qed.

Lemma confirms_cons (event : Event) (events : list Event) :
  confirms env (event :: events)
  = if is_confirm env event then S (confirms env events) else confirms env events.
Proof. unfold confirms. simpl. now destruct (is_confirm env event). Qed.

Lemma feed_no_confirm (events : list Event) (d : MultiMessageDialog.t) :
  confirms env events = 0%nat -> feed env d events = d.
Proof.
  revert d. induction events as [|event events IH]; intros d H; [reflexivity|].
  rewrite confirms_cons in H. rewrite feed_cons.
  destruct (is_confirm env event) eqn:E; [discriminate|].
  rewrite (process_event_other _ _ E). now apply IH.
Qed.

Lemma feed_showing (pgs : list Panel) (events : list Event) :
  forall (j : nat) (d : MultiMessageDialog.t),
    showing pgs j d ->
    (j + confirms env events < List.length pgs ->
     showing pgs (j + confirms env events) (feed env d events))%nat
    /\ ((j + confirms env events)%nat = List.length pgs ->
        closed_dialog (feed env d events)).
Proof.
  induction events as [|event events IH]; intros j d Hs.
  - change (confirms env []) with 0%nat. change (feed env d []) with d.
    rewrite Nat.add_0_r. split; [now intros _|].
    intros Heq. destruct Hs as (p & Hp & _). apply nth_error_lt in Hp. lia.
  - rewrite feed_cons, confirms_cons. destruct (is_confirm env event) eqn:E.
    + destruct (process_event_confirm pgs j d event Hs E) as [Hnext Hlast].
      assert (Hj : (j < List.length pgs)%nat).
      { destruct Hs as (p & Hp & _). now apply nth_error_lt in Hp. }
      destruct (Nat.eq_dec (S j) (List.length pgs)) as [Heq | Hneq].
      * split; [lia|]. intros Hk.
        rewrite feed_no_confirm by lia. now apply Hlast.
      * assert (Hlt : (S j < List.length pgs)%nat) by lia.
        specialize (IH (S j) _ (Hnext Hlt)).
        rewrite <- Nat.add_succ_comm. exact IH.
    + rewrite (process_event_other _ _ E). now apply IH.
Qed.

End MultiPages.

(** C5: a [MultiMessageDialog] that was constructed has N >= 1 pages and shows
    page 0.  After any sequence of events of which k are confirm-key events,
    it shows page k and is open if k < N, and it is closed if k = N: the
    first N - 1 confirm events each turn one page, and the N-th closes. *)
Theorem multi_dialog_pages (env : Env) (text : string) (block_movement : bool)
  (d : MultiMessageDialog.t) :
  MultiMessageDialog.__init__ env text block_movement = Ok d ->
  (1 <= List.length (pages env d))%nat
  /\ showing (pages env d) 0 d
  /\ forall events,
       (confirms env events < List.length (pages env d) ->
        showing (pages env d) (confirms env events) (feed env d events))%nat
       /\ (confirms env events = List.length (pages env d) ->
           closed_dialog (feed env d events)).
Proof.
  intros Hinit. destruct (init_showing env text block_movement d Hinit) as [Hne Hs].
  split; [destruct (pages env d); [congruence | simpl; lia]|].
  split; [exact Hs|].
  intros events. exact (feed_showing env (pages env d) events 0%nat d Hs).
Qed.

Lemma multi_dialog_pages_witness :
  exists d,
    MultiMessageDialog.__init__ demo_env
      "The quick brown fox jumps over the lazy dog and runs far away" true = Ok d
    /\ List.length (pages demo_env d) = 2%nat
    /\ showing (pages demo_env d) 1 (feed demo_env d [mkEvent 2 13])
    /\ closed_dialog (feed demo_env d [mkEvent 2 13; mkEvent 3 0; mkEvent 2 32]).
Proof.
  assert (Hinit : MultiMessageDialog.__init__ demo_env
                    "The quick brown fox jumps over the lazy dog and runs far away" true
                  = demo_multi) by (vm_compute; reflexivity).
  unfold demo_multi in Hinit.
  match type of Hinit with
  | _ = Ok ?d =>
      exists d; split; [exact Hinit|];
      pose proof (multi_dialog_pages _ _ _ d Hinit) as (_ & _ & H)
  end.
  split; [vm_compute; reflexivity|]. split.
  - apply (proj1 (H [mkEvent 2 13])). vm_compute. constructor.
  - apply (proj2 (H [mkEvent 2 13; mkEvent 3 0; mkEvent 2 32])).
    vm_compute. reflexivity.
Defined.

(** ** [MessageQueue] *)

Section QueueOrder.

Import MessageQueue.

Lemma finish_controlled (stack : ContextStack) (c : nat) :
  map controlled (finish stack c) = map controlled stack.
Proof.
  revert c. induction stack as [|ctl rest IH]; intros c; [reflexivity|].
  destruct c as [|c]; simpl; [reflexivity | now rewrite IH].
Qed.

Lemma finish_done (stack : ContextStack) (c : nat) :
  Forall (fun ctl => done ctl = true) stack ->
  Forall (fun ctl => done ctl = true) (finish stack c).
Proof.
  intros H. revert c. induction H as [|ctl rest Hctl Hrest IH]; intros c.
  - constructor.
  - destruct c as [|c]; simpl; constructor; auto.
Qed.

Lemma finish_snoc (old : ContextStack) (last : MenuController) (c : nat) :
  exists last',
    finish (old ++ [last]) c = finish old c ++ [last']
    /\ controlled last' = controlled last
    /\ (done last = true -> done last' = true).
Proof.
  revert c. induction old as [|ctl old IH]; intros c; simpl.
  - destruct c as [|c]; eexists; repeat split; auto.
  - destruct c as [|c]; simpl.
    + exists last. repeat split; auto.
    + destruct (IH c) as (last' & -> & Hc & Hd). exists last'. repeat split; auto.
Qed.

Lemma finish_length (stack : ContextStack) (c : nat) :
  List.length (finish stack c) = List.length stack.
Proof.
  revert c. induction stack as [|ctl rest IH]; intros c; [reflexivity|].
  destruct c as [|c]; simpl; [reflexivity | now rewrite IH].
Qed.

Lemma is_done_newest (old : ContextStack) (last : MenuController) :
  is_done (old ++ [last]) (List.length old) = done last.
Proof.
  unfold is_done. rewrite nth_error_app2 by lia. now rewrite Nat.sub_diag.
Qed.

(** [pop_next] either does nothing or, with no current dialog, stacks a fresh
    controller for the head of the queue. *)
Lemma pop_next_cases (w : World) :
  pop_next w = w
  \/ (current (self w) = None
      /\ exists d rest,
           queue (self w) = d :: rest
           /\ pop_next w
              = mkWorld (mk (Some d) (Some (List.length (context_stack w))) rest)
                        (context_stack w ++ [mkController d false])).
Proof.
  unfold pop_next. destruct (current (self w)); [now left|].
  destruct (queue (self w)) as [|d rest]; [now left|].
  right. split; [reflexivity|]. now exists d, rest.
Qed.

Lemma invariant_step (w : World) (op : Op) : invariant w -> invariant (step w op).
Proof.
  intros Hinv. destruct op as [message | | c]; simpl.
  - exact Hinv.
  - destruct Hinv as [(Hstack & Hcur & Hctl) | (old & last & Hstack & Hold & Hctl & Hcur)].
    + rewrite Hctl. destruct (pop_next_cases w) as [-> | (_ & d & rest & _ & ->)].
      * now left.
      * right. exists [], (mkController d false). rewrite Hstack. simpl.
        repeat split; auto.
    + rewrite Hctl, Hstack, is_done_newest.
      destruct (done last) eqn:Hdone.
      * match goal with |- invariant (pop_next ?w') =>
          destruct (pop_next_cases w') as [-> | (_ & d & rest & _ & ->)] end; simpl.
        -- right. exists old, last. simpl. repeat split; auto.
        -- right. exists (old ++ [last]), (mkController d false). simpl.
           repeat split; auto.
           apply Forall_app. split; [exact Hold | repeat constructor; exact Hdone].
      * destruct Hcur as [Hcur | [_ Hd]]; [|congruence].
        unfold pop_next. rewrite Hcur. right. exists old, last. auto.
  - destruct Hinv as [(Hstack & Hcur & Hctl) | (old & last & Hstack & Hold & Hctl & Hcur)].
    + left. rewrite Hstack. destruct c; simpl; auto.
    + right. rewrite Hstack.
      destruct (finish_snoc old last c) as (last' & -> & Hc & Hd).
      exists (finish old c), last'. rewrite finish_length, Hc.
      repeat split; auto using finish_done.
      destruct Hcur as [Hcur | [Hcur Hdone]]; [now left | right; auto].
Qed.

Lemma invariant_run (ops : list Op) (w : World) :
  invariant w -> invariant (run ops w).
Proof.
  revert w. induction ops as [|op ops IH]; intros w H; [exact H|].
  apply IH. now apply invariant_step.
Qed.

Lemma invariant_start : invariant start.
Proof. left. repeat split. Qed.

Lemma filter_done (old : ContextStack) :
  Forall (fun ctl => done ctl = true) old ->
  filter (fun ctl => negb (done ctl)) old = [].
Proof.
  induction 1 as [|ctl old Hctl _ IH]; [reflexivity|].
  simpl. now rewrite Hctl.
Qed.

(** Only the newest controller can be running. *)
Lemma running_newest (w : World) (old : ContextStack) (last : MenuController) :
  context_stack w = old ++ [last] ->
  Forall (fun ctl => done ctl = true) old ->
  running w = if done last then [] else [last].
Proof.
  intros Hstack Hold. unfold running. rewrite Hstack, filter_app.
  rewrite (filter_done old Hold). simpl. now destruct (done last).
Qed.

(** Under the invariant at most the newest controller is running, and then the
    queue's current dialog is the one it controls. *)
Lemma invariant_running (w : World) :
  invariant w ->
  running w = []
  \/ exists ctl, running w = [ctl] /\ current (self w) = Some (controlled ctl).
Proof.
  intros [(Hstack & _) | (old & last & Hstack & Hold & _ & Hcur)].
  - left. unfold running. now rewrite Hstack.
  - rewrite (running_newest w old last Hstack Hold).
    destruct (done last) eqn:Hdone; [now left|].
    right. exists last. split; [reflexivity|].
    destruct Hcur as [Hcur | [_ Hd]]; [exact Hcur | congruence].
Qed.

(** [update] is [pop_next] on a world that differs from the given one at most
    in [current], which is cleared when the controller is done. *)
Lemma update_pop_next (w : World) :
  exists w',
    fst (update w) = pop_next w'
    /\ context_stack w' = context_stack w
    /\ queue (self w') = queue (self w)
    /\ (current (self w') = current (self w)
        \/ (current (self w') = None
            /\ exists c, controller (self w) = Some c
                         /\ is_done (context_stack w) c = true)).
Proof.
  unfold update. cbn [fst].
  destruct (controller (self w)) as [c|] eqn:Hctl.
  - destruct (is_done (context_stack w) c) eqn:Hdone.
    + eexists. split; [reflexivity|]. cbn. repeat split. right.
      split; [reflexivity|]. now exists c.
    + exists w. repeat split. now left.
  - exists w. repeat split. now left.
Qed.

(** One operation keeps the dialogs in line: those activated, then those
    waiting, are the ones before followed by the one pushed, if any. *)
Lemma step_order (w : World) (op : Op) :
  activated (step w op) ++ queue (self (step w op))
  = (activated w ++ queue (self w)) ++ pushed [op].
Proof.
  destruct op as [message | | c]; cbn [step pushed].
  - unfold activated. simpl. now rewrite app_assoc.
  - rewrite app_nil_r.
    destruct (update_pop_next w) as (w' & -> & Hst & Hq & _).
    unfold activated. rewrite <- Hst, <- Hq.
    destruct (pop_next_cases w') as [-> | (_ & d & rest & Hd & ->)]; [reflexivity|].
    simpl. rewrite Hd, map_app, <- app_assoc. reflexivity.
  - unfold activated. simpl. now rewrite finish_controlled, app_nil_r.
Qed.

Lemma pushed_app (a b : list Op) : pushed (a ++ b) = pushed a ++ pushed b.
Proof.
  induction a as [|op a IH]; [reflexivity|].
  destruct op; simpl; now rewrite IH.
Qed.

Lemma run_order (ops : list Op) (w : World) :
  activated (run ops w) ++ queue (self (run ops w))
  = (activated w ++ queue (self w)) ++ pushed ops.
Proof.
  revert w. induction ops as [|op ops IH]; intros w.
  - simpl. now rewrite app_nil_r.
  - change (run (op :: ops) w) with (run ops (step w op)).
    rewrite IH, step_order. change (op :: ops) with ([op] ++ ops).
    now rewrite pushed_app, app_assoc.
Qed.

(** An operation activates a dialog only if it is [update], no stacked
    controller is still running, and the dialog is the head of the queue. *)
Lemma step_activation (w : World) (op : Op) :
  invariant w ->
  activated (step w op) = activated w
  \/ (op = Update
      /\ running w = []
      /\ exists d rest,
           queue (self w) = d :: rest
           /\ activated (step w op) = activated w ++ [d]).
Proof.
  intros Hinv. destruct op as [message | | c]; cbn [step].
  - now left.
  - destruct (update_pop_next w) as (w' & -> & Hst & Hq & Hcur).
    destruct (pop_next_cases w') as [-> | (Hnone & d & rest & Hd & ->)].
    + left. unfold activated. now rewrite Hst.
    + right. split; [reflexivity|]. split.
      * destruct Hinv as [(Hstack & _) | (old & last & Hstack & Hold & Hctl & Hlast)].
        -- unfold running. now rewrite Hstack.
        -- rewrite (running_newest w old last Hstack Hold).
           destruct (done last) eqn:Hdone; [reflexivity|]. exfalso.
           destruct Hcur as [Hcur | (_ & c & Hc & Hdc)].
           ++ rewrite Hnone in Hcur. destruct Hlast as [Hl | [_ Hl]]; congruence.
           ++ rewrite Hctl in Hc. injection Hc as <-.
              rewrite Hstack, is_done_newest in Hdc. congruence.
      * exists d, rest. split; [now rewrite <- Hq|].
        unfold activated. simpl. now rewrite Hst, map_app.
  - left. unfold activated. simpl. apply finish_controlled.
Qed.

End QueueOrder.

(** C6: after any sequence of pushes, update ticks and dialog completions, at
    most one stacked controller is still running and its dialog is the queue's
    current one; the dialogs activated so far followed by the dialogs still
    queued are the pushed dialogs in push order; a push activates nothing and
    leaves the current dialog alone; and whatever the next operation is, it
    activates a dialog only if it is an update, no controller is running, and
    the dialog is the oldest one waiting. *)
Theorem message_queue_order (ops : list MessageQueue.Op) :
  let w := MessageQueue.run ops MessageQueue.start in
  (List.length (MessageQueue.running w) <= 1)%nat
  /\ (forall ctl, In ctl (MessageQueue.running w) ->
       MessageQueue.current (MessageQueue.self w)
       = Some (MessageQueue.controlled ctl))
  /\ MessageQueue.activated w ++ MessageQueue.queue (MessageQueue.self w)
     = MessageQueue.pushed ops
  /\ (forall message,
       MessageQueue.activated (MessageQueue.push w message) = MessageQueue.activated w
       /\ MessageQueue.current (MessageQueue.self (MessageQueue.push w message))
          = MessageQueue.current (MessageQueue.self w))
  /\ (forall op,
       MessageQueue.activated (MessageQueue.step w op) = MessageQueue.activated w
       \/ (op = MessageQueue.Update
           /\ MessageQueue.running w = []
           /\ exists d rest,
                MessageQueue.queue (MessageQueue.self w) = d :: rest
                /\ MessageQueue.activated (MessageQueue.step w op)
                   = MessageQueue.activated w ++ [d])).
Proof.
  intros w.
  assert (Hinv : MessageQueue.invariant w)
    by (apply invariant_run, invariant_start).
  repeat split.
  - destruct (invariant_running w Hinv) as [-> | (ctl & -> & _)]; simpl; lia.
  - intros ctl Hin.
    destruct (invariant_running w Hinv) as [Hrun | (ctl' & Hrun & Hcur)];
      rewrite Hrun in Hin; simpl in Hin; [contradiction|].
    destruct Hin as [<- | []]. exact Hcur.
  - unfold w. now rewrite run_order.
  - intros op. now apply step_activation.
Qed.

(** Three dialogs pushed in order, the third while the first is on screen: each
    becomes active only after the one before it has finished. *)
Example queue_three_dialogs :
  let ops1 := [MessageQueue.Push (note "D1"); MessageQueue.Push (note "D2");
               MessageQueue.Update; MessageQueue.Push (note "D3");
               MessageQueue.Update] in
  let ops2 := ops1 ++ [MessageQueue.Finish 0; MessageQueue.Update] in
  let ops3 := ops2 ++ [MessageQueue.Update; MessageQueue.Finish 1;
                       MessageQueue.Update] in
  MessageQueue.activated (MessageQueue.run ops1 MessageQueue.start) = [note "D1"]
  /\ MessageQueue.activated (MessageQueue.run ops2 MessageQueue.start)
     = [note "D1"; note "D2"]
  /\ MessageQueue.activated (MessageQueue.run ops3 MessageQueue.start)
     = [note "D1"; note "D2"; note "D3"]
  /\ MessageQueue.running (MessageQueue.run ops3 MessageQueue.start)
     = [MessageQueue.mkController (note "D3") false].
Proof. repeat split. Qed.

(** * Further properties *)

(** ** More on [build_lines] *)

Lemma chain_nth {A : Type} (R : A -> A -> Prop) (l : list A) :
  chain R l ->
  forall i a b, nth_error l i = Some a -> nth_error l (S i) = Some b -> R a b.
Proof.
  induction l as [|x l IH]; intros Hc i a b Ha Hb.
  - destruct i; discriminate.
  - destruct l as [|y l]; [destruct i; discriminate|].
    destruct Hc as [Hxy Hc]. destruct i as [|i].
    + simpl in Ha, Hb. injection Ha as <-. injection Hb as <-. exact Hxy.
    + exact (IH Hc i a b Ha Hb).
Qed.

Lemma join_snoc (sep : string) (l : list string) (x : string) :
  l <> [] -> join sep (l ++ [x]) = (join sep l ++ sep ++ x)%string.
Proof.
  induction l as [|a l IH]; intros Hne; [congruence|].
  destruct l as [|b l]; [reflexivity|].
  change (join sep ((a :: b :: l) ++ [x]))
    with (a ++ sep ++ join sep ((b :: l) ++ [x]))%string.
  rewrite IH by discriminate.
  change (join sep (a :: b :: l)) with (a ++ sep ++ join sep (b :: l))%string.
  now rewrite !append_assoc.
Qed.

(** Two neighbours joined by the separator count as one element. *)
Lemma join_merge (sep : string) (a b : list string) (x y : string) :
  join sep (a ++ (x ++ sep ++ y)%string :: b) = join sep (a ++ x :: y :: b).
Proof.
  induction a as [|a0 a IH].
  - simpl. destruct b as [|b0 b]; [reflexivity|]. now rewrite !append_assoc.
  - change ((a0 :: a) ++ (x ++ sep ++ y)%string :: b)
      with (a0 :: (a ++ (x ++ sep ++ y)%string :: b)).
    change ((a0 :: a) ++ x :: y :: b) with (a0 :: (a ++ x :: y :: b)).
    destruct a as [|a1 a]; simpl in *; now rewrite IH.
Qed.

Lemma grows_join (box_width : Z) (font : Font) (w : string) (ws : list string)
  (cur : string) :
  grows box_width font w ws cur -> cur = join " " (w :: ws).
Proof.
  induction 1 as [w Hw | w ws cur word _ IH Hword _]; [reflexivity|].
  change (w :: ws ++ [word]) with ((w :: ws) ++ [word]).
  rewrite join_snoc by discriminate. now rewrite <- IH.
Qed.

Lemma build_lines_grown (text : string) (box_width : Z) (font : Font)
  (lines : list Line) :
  build_lines text box_width font = Ok lines ->
  Forall (grown box_width font) lines.
Proof.
  unfold build_lines. pose proof (split_words text) as Hwords.
  destruct (split text) as [|word0 rest]; [discriminate|].
  destruct (size font word0) as [w0 height]. intros H. injection H as <-.
  inversion Hwords as [|? ? Hw0 Hrest]; subst.
  apply (build_lines_loop_grown _ _ _ Hrest _ _ _ word0 []);
    [constructor | now constructor].
Qed.

Lemma build_lines_words (text : string) (box_width : Z) (font : Font)
  (lines : list Line) :
  build_lines text box_width font = Ok lines -> words_of lines = split text.
Proof.
  unfold build_lines. pose proof (split_words text) as Hwords.
  destruct (split text) as [|word0 rest]; [discriminate|].
  destruct (size font word0) as [w0 height]. intros H. injection H as <-.
  inversion Hwords as [|? ? Hw0 Hrest]; subst.
  rewrite build_lines_loop_words by exact Hrest.
  now rewrite (split_word _ Hw0).
Qed.

Lemma flat_map_length_le {A B : Type} (f : A -> list B) (l : list A) :
  Forall (fun a => f a <> []) l ->
  (List.length l <= List.length (flat_map f l))%nat.
Proof.
  induction 1 as [|a l Ha _ IH]; simpl; [lia|].
  rewrite length_app. destruct (f a); [congruence|]. simpl. lia.
Qed.

Section BuildLinesMore.

Variables (box_width : Z) (font : Font).

Lemma build_lines_loop_chain (words : list string) :
  Forall (fun w => is_word w = true) words ->
  forall lines cur_line height w0 ws0,
    split cur_line = w0 :: ws0 ->
    exists first rest,
      build_lines_loop box_width font words lines cur_line height
      = lines ++ first :: rest
      /\ (exists ws', split (snd first) = w0 :: ws')
      /\ chain (overflows box_width font) (first :: rest).
Proof.
  induction 1 as [|word words Hw Hwords IH];
    intros lines cur_line height w0 ws0 Hcur; cbn [build_lines_loop].
  - exists (height, cur_line), []. repeat split. now exists ws0.
  - destruct (size font (cur_line ++ " " ++ word)) as [width height'] eqn:E.
    destruct (width >? box_width) eqn:G.
    + destruct (IH (lines ++ [(height', cur_line)]) word height' word []
                  (split_word _ Hw)) as (first & rest & Heq & [ws' Hfirst] & Hchain).
      exists (height', cur_line), (first :: rest).
      rewrite Heq, <- app_assoc. repeat split.
      * now exists ws0.
      * exists word, ws'. split; [exact Hfirst|]. cbn [snd]. rewrite E.
        cbn [fst]. now apply Z.gtb_gt.
      * exact Hchain.
    + apply (IH lines _ height' w0 (ws0 ++ [word])).
      now rewrite (split_projected _ _ Hw), Hcur.
Qed.

Lemma build_lines_loop_wide (words : list string) :
  Forall (fun w => is_word w = true) words ->
  forall lines cur_line height,
    Forall (fun l => fits box_width font l \/ is_word (snd l) = true) lines ->
    fst (size font cur_line) <= box_width \/ is_word cur_line = true ->
    Forall (fun l => fits box_width font l \/ is_word (snd l) = true)
      (build_lines_loop box_width font words lines cur_line height).
Proof.
  induction 1 as [|word words Hw Hwords IH];
    intros lines cur_line height Hl Hc; cbn [build_lines_loop].
  - apply Forall_app. split; [exact Hl | constructor; [exact Hc | constructor]].
  - destruct (size font (cur_line ++ " " ++ word)) as [width height'] eqn:E.
    destruct (width >? box_width) eqn:G.
    + apply IH; [|now right].
      apply Forall_app. split; [exact Hl | constructor; [exact Hc | constructor]].
    + apply IH; [exact Hl|]. left. rewrite E. simpl.
      rewrite Z.gtb_ltb in G. now apply Z.ltb_ge in G.
Qed.

Lemma build_lines_loop_measured (words : list string) :
  forall lines cur_line height,
    Forall (measured font) lines ->
    (exists s, height = snd (size font s)) ->
    Forall (measured font)
      (build_lines_loop box_width font words lines cur_line height).
Proof.
  induction words as [|word words IH]; intros lines cur_line height Hl Hh;
    cbn [build_lines_loop].
  - apply Forall_app. split; [exact Hl | constructor; [exact Hh | constructor]].
  - destruct (size font (cur_line ++ " " ++ word)) as [width height'] eqn:E.
    assert (Hh' : exists s, height' = snd (size font s))
      by (exists (cur_line ++ " " ++ word)%string; now rewrite E).
    destruct (width >? box_width).
    + apply IH; [|exact Hh'].
      apply Forall_app. split; [exact Hl | constructor; [exact Hh' | constructor]].
    + apply IH; assumption.
Qed.

Lemma build_lines_loop_join (words : list string) :
  forall lines cur_line height,
    join " " (map snd (build_lines_loop box_width font words lines cur_line height))
    = join " " (map snd lines ++ cur_line :: words).
Proof.
  induction words as [|word words IH]; intros lines cur_line height;
    cbn [build_lines_loop].
  - now rewrite map_app.
  - destruct (size font (cur_line ++ " " ++ word)) as [width height'].
    destruct (width >? box_width).
    + rewrite IH, map_app, <- app_assoc. reflexivity.
    + rewrite IH. apply join_merge.
Qed.

End BuildLinesMore.

Lemma build_lines_measured (text : string) (box_width : Z) (font : Font)
  (lines : list Line) :
  build_lines text box_width font = Ok lines -> Forall (measured font) lines.
Proof.
  unfold build_lines. destruct (split text) as [|word0 rest]; [discriminate|].
  destruct (size font word0) as [w0 height] eqn:E. intros H. injection H as <-.
  apply build_lines_loop_measured; [constructor|].
  exists word0. now rewrite E.
Qed.

(** X1: wrapping is greedy.  Of two consecutive lines that [build_lines]
    returns, the second starts with a word that, appended to the first after a
    space, the font measures wider than the box. *)
Theorem build_lines_greedy (text : string) (box_width : Z) (font : Font)
  (lines : list Line) (i : nat) (l1 l2 : Line) :
  build_lines text box_width font = Ok lines ->
  nth_error lines i = Some l1 ->
  nth_error lines (S i) = Some l2 ->
  exists w ws,
    split (snd l2) = w :: ws
    /\ fst (size font (snd l1 ++ " " ++ w)) > box_width.
Proof.
  intros Hbuild H1 H2. unfold build_lines in Hbuild.
  pose proof (split_words text) as Hwords.
  destruct (split text) as [|word0 rest]; [discriminate|].
  destruct (size font word0) as [w0 height]. injection Hbuild as <-.
  inversion Hwords as [|? ? Hw0 Hrest]; subst.
  destruct (build_lines_loop_chain box_width font rest Hrest [] word0 height
              word0 [] (split_word _ Hw0)) as (first & more & Heq & _ & Hchain).
  rewrite Heq in H1, H2. simpl app in H1, H2.
  exact (chain_nth _ _ Hchain i l1 l2 H1 H2).
Qed.

Lemma build_lines_greedy_witness :
  exists w ws,
    split "fox jumps over" = w :: ws
    /\ fst (size len_font ("The quick brown" ++ " " ++ w)) > 15.
Proof.
  apply (build_lines_greedy "The quick brown fox jumps over the lazy dog" 15 len_font
           [(19, "The quick brown"); (18, "fox jumps over"); (12, "the lazy dog")]
           0%nat (19, "The quick brown") (18, "fox jumps over"));
    reflexivity.
Defined.

(** X2: the text of every line [build_lines] returns is its own words joined
    by single spaces, whatever white space the input had, and it has at least
    one word; so there are at most as many lines as words. *)
Theorem build_lines_canonical (text : string) (box_width : Z) (font : Font)
  (lines : list Line) :
  build_lines text box_width font = Ok lines ->
  Forall (fun l => split (snd l) <> [] /\ snd l = join " " (split (snd l))) lines
  /\ (List.length lines <= List.length (split text))%nat.
Proof.
  intros Hbuild.
  assert (Hcanon : Forall (fun l => split (snd l) <> []
                                    /\ snd l = join " " (split (snd l))) lines).
  { pose proof (build_lines_grown _ _ _ _ Hbuild) as Hg.
    apply Forall_forall. intros l Hl. rewrite Forall_forall in Hg.
    destruct (Hg l Hl) as (w & ws & Hgrow).
    rewrite (grows_split _ _ _ _ _ Hgrow).
    split; [discriminate | now apply grows_join with (1 := Hgrow)]. }
  split; [exact Hcanon|].
  rewrite <- (build_lines_words _ _ _ _ Hbuild). unfold words_of.
  apply flat_map_length_le. apply Forall_forall. intros l Hl.
  rewrite Forall_forall in Hcanon. now destruct (Hcanon l Hl).
Qed.

Lemma build_lines_canonical_witness :
  Forall (fun l => split (snd l) <> [] /\ snd l = join " " (split (snd l)))
    [(5, "a b"); (5, "c")]
  /\ (List.length [(5, "a b"); (5, "c")] <= List.length (split "  a   b  c "))%nat.
Proof.
  apply (build_lines_canonical "  a   b  c " 3 len_font [(5, "a b"); (5, "c")]).
  reflexivity.
Defined.

(** X3: with no premise on the widths of the words, [build_lines] still keeps
    the words of the text, line after line, and each line it returns either
    fits the box or consists of one single word: a word wider than the box gets
    a line of its own and is never cut. *)
Theorem build_lines_oversized_word (text : string) (box_width : Z) (font : Font)
  (lines : list Line) :
  build_lines text box_width font = Ok lines ->
  words_of lines = split text
  /\ Forall (fun l => fits box_width font l \/ is_word (snd l) = true) lines.
Proof.
  intros Hbuild. split; [now apply build_lines_words with (1 := Hbuild)|].
  unfold build_lines in Hbuild. pose proof (split_words text) as Hwords.
  destruct (split text) as [|word0 rest]; [discriminate|].
  destruct (size font word0) as [w0 height]. injection Hbuild as <-.
  inversion Hwords as [|? ? Hw0 Hrest]; subst.
  apply build_lines_loop_wide; [exact Hrest | constructor | now right].
Qed.

Lemma build_lines_oversized_word_witness :
  words_of [(8, "a"); (8, "bbbbbb"); (8, "c")] = split "a bbbbbb c"
  /\ Forall (fun l => fits 3 len_font l \/ is_word (snd l) = true)
       [(8, "a"); (8, "bbbbbb"); (8, "c")].
Proof.
  apply (build_lines_oversized_word "a bbbbbb c" 3 len_font
           [(8, "a"); (8, "bbbbbb"); (8, "c")]).
  reflexivity.
Defined.

(** X4: with a font that measures the same height [h] on every text, every
    line [build_lines] returns has height [h]. *)
Theorem build_lines_constant_height (text : string) (box_width : Z) (font : Font)
  (h : Z) (lines : list Line) :
  (forall s, snd (size font s) = h) ->
  build_lines text box_width font = Ok lines ->
  Forall (fun l => fst l = h) lines.
Proof.
  intros Hconst Hbuild.
  pose proof (build_lines_measured _ _ _ _ Hbuild) as Hm.
  apply Forall_forall. intros l Hl. rewrite Forall_forall in Hm.
  destruct (Hm l Hl) as [s ->]. apply Hconst.
Qed.

Lemma build_lines_constant_height_witness :
  Forall (fun l : Line => fst l = 16)
    [(16, "The quick brown fox"); (16, "jumps over the lazy"); (16, "dog")].
Proof.
  apply (build_lines_constant_height "The quick brown fox jumps over the lazy dog"
           180 fixed_font 16).
  - intros s. reflexivity.
  - reflexivity.
Defined.

(** X5: the texts of the lines [build_lines] returns, joined by single spaces,
    are the words of the text joined by single spaces: wrapping only turns
    white space into line breaks or single spaces. *)
Theorem build_lines_join (text : string) (box_width : Z) (font : Font)
  (lines : list Line) :
  build_lines text box_width font = Ok lines ->
  join " " (map snd lines) = join " " (split text).
Proof.
  unfold build_lines. destruct (split text) as [|word0 rest]; [discriminate|].
  destruct (size font word0) as [w0 height]. intros H. injection H as <-.
  now rewrite build_lines_loop_join.
Qed.

Lemma build_lines_join_witness :
  join " " (map snd [(5, "a b"); (5, "c")]) = join " " (split "  a   b  c ").
Proof.
  apply (build_lines_join "  a   b  c " 3 len_font [(5, "a b"); (5, "c")]).
  reflexivity.
Defined.

(** ** More on [split_boxes] *)

Lemma box_total_app_le (line_spacing : Z) (b : list Line) :
  Forall (fun l => 0 <= fst l + line_spacing) b ->
  forall a, box_total line_spacing a <= box_total line_spacing (a ++ b).
Proof.
  induction 1 as [|l b Hl _ IH]; intros a.
  - rewrite app_nil_r. lia.
  - change (a ++ l :: b) with (a ++ [l] ++ b). rewrite app_assoc.
    specialize (IH (a ++ [l])). rewrite box_total_snoc in IH.
    cbv beta in Hl. eapply Z.le_trans; [|exact IH]. lia.
Qed.

Section SplitBoxesMore.

Variables (box_height line_spacing : Z).

Lemma split_boxes_loop_chain (lines : list Line) :
  forall boxes box_cur_height box,
    box_cur_height = box_total line_spacing box ->
    box <> [] ->
    exists first rest,
      split_boxes_loop box_height line_spacing lines boxes box_cur_height box
      = boxes ++ first :: rest
      /\ (exists more, first = box ++ more)
      /\ chain (box_overflows box_height line_spacing) (first :: rest).
Proof.
  induction lines as [|line lines IH]; intros boxes cur box Hcur Hne;
    cbn [split_boxes_loop].
  - exists box, []. destruct box as [|l0 box]; [congruence|].
    repeat split. exists []. now rewrite app_nil_r.
  - destruct (cur + fst line + line_spacing >? box_height) eqn:G.
    + assert (Hsingle : fst line = box_total line_spacing [line])
        by now rewrite box_total_single.
      assert (Hline : [line] <> []) by discriminate.
      destruct (IH (boxes ++ [box]) (fst line) [line] Hsingle Hline)
        as (first & rest & Heq & [more Hfirst] & Hchain).
      exists box, (first :: rest). split; [|split].
      * rewrite <- app_assoc in Heq. exact Heq.
      * exists []. now rewrite app_nil_r.
      * split; [|exact Hchain]. exists line, more. split; [exact Hfirst|].
        rewrite <- Hcur. now apply Z.gtb_gt.
    + assert (Hsnoc : box ++ [line] <> []) by (destruct box; discriminate).
      assert (Htotal : cur + (fst line + line_spacing)
                       = box_total line_spacing (box ++ [line]))
        by (rewrite box_total_snoc; now rewrite Hcur).
      destruct (IH boxes _ (box ++ [line]) Htotal Hsnoc)
        as (first & rest & Heq & [more Hfirst] & Hchain).
      exists first, rest. split; [exact Heq|]. split; [|exact Hchain].
      exists (line :: more). rewrite Hfirst, <- app_assoc. reflexivity.
Qed.

Lemma split_boxes_loop_one_box (lines : list Line) :
  Forall (fun l => 0 <= fst l + line_spacing) lines ->
  forall boxes box_cur_height box,
    box_cur_height = box_total line_spacing box ->
    box <> [] ->
    box_total line_spacing (box ++ lines) <= box_height ->
    split_boxes_loop box_height line_spacing lines boxes box_cur_height box
    = boxes ++ [box ++ lines].
Proof.
  induction 1 as [|line lines Hline Hlines IH]; intros boxes cur box Hcur Hne Hfit;
    cbn [split_boxes_loop].
  - rewrite app_nil_r. destruct box; [congruence | reflexivity].
  - assert (Hstep : box_total line_spacing (box ++ [line]) <= box_height).
    { eapply Z.le_trans;
        [apply (box_total_app_le line_spacing lines Hlines (box ++ [line]))|].
      rewrite <- app_assoc. exact Hfit. }
    rewrite box_total_snoc, <- Hcur in Hstep.
    assert (G : (cur + fst line + line_spacing >? box_height) = false).
    { rewrite Z.gtb_ltb. apply Z.ltb_ge. lia. }
    rewrite G.
    assert (Heq : (box ++ [line]) ++ lines = box ++ line :: lines)
      by now rewrite <- app_assoc.
    rewrite <- Heq. apply IH.
    + rewrite box_total_snoc. now rewrite Hcur.
    + destruct box; discriminate.
    + rewrite Heq. exact Hfit.
Qed.

End SplitBoxesMore.

(** X6: pagination is greedy.  Of two consecutive boxes that [split_boxes]
    returns, the second starts with a line that, added under the first with
    one more [line_spacing], would exceed the height budget. *)
Theorem split_boxes_greedy (lines : list Line) (box_height line_spacing : Z)
  (boxes : list Box) (i : nat) (b1 b2 : Box) :
  split_boxes lines box_height line_spacing = Ok boxes ->
  nth_error boxes i = Some b1 ->
  nth_error boxes (S i) = Some b2 ->
  exists l rest,
    b2 = l :: rest
    /\ box_total line_spacing b1 + fst l + line_spacing > box_height.
Proof.
  intros Hsplit H1 H2. unfold split_boxes in Hsplit.
  destruct lines as [|line0 rest]; [discriminate|].
  assert (Hsingle : fst line0 = box_total line_spacing [line0])
    by now rewrite box_total_single.
  assert (Hline : [line0] <> []) by discriminate.
  destruct (split_boxes_loop_chain box_height line_spacing rest [] (fst line0)
              [line0] Hsingle Hline) as (first & more & Heq & _ & Hchain).
  injection Hsplit as <-.
  assert (Hboxes : split_boxes_loop box_height line_spacing rest [] (fst line0) [line0]
                   = first :: more) by exact Heq.
  rewrite Hboxes in H1, H2.
  exact (chain_nth _ _ Hchain i b1 b2 H1 H2).
Qed.

Lemma split_boxes_greedy_witness :
  exists l rest,
    [(30, "c")] = l :: rest
    /\ box_total 2 [(10, "a"); (10, "b")] + fst l + 2 > 22.
Proof.
  apply (split_boxes_greedy [(10, "a"); (10, "b"); (30, "c"); (5, "d")] 22 2
           [[(10, "a"); (10, "b")]; [(30, "c")]; [(5, "d")]] 0%nat
           [(10, "a"); (10, "b")] [(30, "c")]);
    reflexivity.
Defined.

(** X7: lines that together fit the height budget stay on one page.  If the
    list of lines is not empty, each line's height plus [line_spacing] is not
    negative, and the height of all lines as one box is within the budget,
    [split_boxes] returns that one box. *)
Theorem split_boxes_one_box (lines : list Line) (box_height line_spacing : Z) :
  lines <> [] ->
  Forall (fun l => 0 <= fst l + line_spacing) lines ->
  box_total line_spacing lines <= box_height ->
  split_boxes lines box_height line_spacing = Ok [lines].
Proof.
  intros Hne Hpos Hfit. destruct lines as [|line0 rest]; [congruence|].
  unfold split_boxes. inversion Hpos as [|? ? _ Hrest]; subst.
  f_equal.
  apply (split_boxes_loop_one_box box_height line_spacing rest Hrest []
           (fst line0) [line0]).
  - now rewrite box_total_single.
  - discriminate.
  - exact Hfit.
Qed.

Lemma split_boxes_one_box_witness :
  split_boxes [(10, "a"); (10, "b")] 22 2 = Ok [[(10, "a"); (10, "b")]].
Proof.
  apply (split_boxes_one_box [(10, "a"); (10, "b")] 22 2).
  - discriminate.
  - repeat constructor; vm_compute; discriminate.
  - vm_compute. discriminate.
Defined.

(** ** Drawing the labels *)

Lemma sum_heights_cons (l : Line) (rest : list Line) :
  sum_heights (l :: rest) = fst l + sum_heights rest.
Proof.
  unfold sum_heights. simpl. rewrite (fold_left_add_from _ (fst l)). reflexivity.
Qed.

Lemma box_total_cons (line_spacing : Z) (l : Line) (rest : list Line) :
  box_total line_spacing (l :: rest)
  = fst l + line_spacing + box_total line_spacing rest.
Proof.
  unfold box_total. rewrite sum_heights_cons.
  change (List.length (l :: rest)) with (S (List.length rest)).
  rewrite Nat2Z.inj_succ. ring.
Qed.

Section DrawLines.

Variables (env : Env) (foc : option bool) (x spacing : Z).

Lemma draw_lines_size (lines : list Line) :
  forall panel y_acc,
    panel_width (fst (draw_lines env foc x spacing lines panel y_acc))
    = panel_width panel
    /\ panel_height (fst (draw_lines env foc x spacing lines panel y_acc))
       = panel_height panel.
Proof.
  induction lines as [|line rest IH]; intros panel y_acc; cbn [draw_lines].
  - now split.
  - destruct (IH (panel_add_widget panel (mkLabel (snd line) foc)
                    (x, border_width (cfg env) + y_acc))
                 (y_acc + (fst line + spacing))) as [-> ->].
    now split.
Qed.

(** The labels are the lines, in order, after the labels already there. *)
Lemma draw_lines_labels (lines : list Line) :
  forall panel y_acc,
    map fst (panel_widgets (fst (draw_lines env foc x spacing lines panel y_acc)))
    = map fst (panel_widgets panel) ++ map (fun l => mkLabel (snd l) foc) lines.
Proof.
  induction lines as [|line rest IH]; intros panel y_acc; cbn [draw_lines].
  - now rewrite app_nil_r.
  - rewrite IH. cbn. rewrite map_app, <- app_assoc. reflexivity.
Qed.

(** Where the labels go: in column [x], each one between the first free row
    and the row the whole list of lines ends at. *)
Lemma draw_lines_inside (lines : list Line) :
  0 <= spacing ->
  Forall (fun l => 0 <= fst l) lines ->
  forall panel y_acc top bottom,
    top <= border_width (cfg env) + y_acc ->
    border_width (cfg env) + y_acc + box_total spacing lines <= bottom ->
    exists placed,
      panel_widgets (fst (draw_lines env foc x spacing lines panel y_acc))
      = panel_widgets panel ++ placed
      /\ Forall2 (fun p line =>
                   fst p = mkLabel (snd line) foc
                   /\ fst (snd p) = x
                   /\ top <= snd (snd p)
                   /\ snd (snd p) + fst line <= bottom)
           placed lines.
Proof.
  intros Hsp Hpos. induction Hpos as [|line rest Hline Hrest IH];
    intros panel y_acc top bottom Htop Hbottom; cbn [draw_lines].
  - exists []. rewrite app_nil_r. split; [reflexivity | constructor].
  - rewrite box_total_cons in Hbottom. cbv beta in Hline.
    assert (Hnonneg : Forall (fun l => 0 <= fst l + spacing) rest).
    { apply Forall_forall. intros l Hl. rewrite Forall_forall in Hrest.
      specialize (Hrest l Hl). cbv beta in Hrest |- *. lia. }
    pose proof (box_total_app_le spacing rest Hnonneg []) as Hle.
    change (box_total spacing ([] ++ rest)) with (box_total spacing rest) in Hle.
    assert (Hnil : box_total spacing [] = - spacing)
      by (unfold box_total, sum_heights;
          cbn [map fold_left List.length Z.of_nat]; lia).
    rewrite Hnil in Hle.
    destruct (IH (panel_add_widget panel (mkLabel (snd line) foc)
                    (x, border_width (cfg env) + y_acc))
                 (y_acc + (fst line + spacing)) top bottom)
      as (placed & Heq & Hall); [lia | lia |].
    exists ((mkLabel (snd line) foc, (x, border_width (cfg env) + y_acc)) :: placed).
    split.
    + rewrite Heq. cbn. rewrite <- app_assoc. reflexivity.
    + constructor; [|exact Hall]. cbn. repeat split; lia.
Qed.

End DrawLines.

(** ** More on [ElasticMessageDialog] *)

(** What a constructed elastic dialog is made of. *)
Lemma elastic_init_inv (env : Env) (text : string) (bm : bool)
  (d : ElasticMessageDialog.t) :
  ElasticMessageDialog.__init__ env text bm = Ok d ->
  exists lines,
    build_lines text
      (screen_width (g_cfg env) - 4 * border_width (cfg env))
      (get_font (configured_theme env) (font_size (cfg env))) = Ok lines
    /\ ElasticMessageDialog.box_height d
       = ElasticMessageDialog.compute_box_height env lines
    /\ ElasticMessageDialog.box_height d < screen_height (g_cfg env)
    /\ ElasticMessageDialog.menu d
       = Menu.add_widget
           (Menu.__init__ env
              (screen_width (g_cfg env) - 2 * border_width (cfg env))
              (ElasticMessageDialog.box_height d - 2 * border_width (cfg env))
              (border_width (cfg env))
              (screen_height (g_cfg env) - ElasticMessageDialog.box_height d
               + border_width (cfg env))
              (0, 0, 0, 0))
           (fst (draw_lines env None (border_width (cfg env))
                   (line_spacing (cfg env)) lines
                   (mkPanel
                      (screen_width (g_cfg env) - 2 * border_width (cfg env))
                      (ElasticMessageDialog.box_height d
                       - 2 * border_width (cfg env)) [])
                   0))
           (0, 0).
Proof.
  unfold ElasticMessageDialog.__init__.
  destruct (build_lines text _ _) as [lines|e]; [|discriminate]. cbn [bind].
  destruct (ElasticMessageDialog.compute_box_height env lines
            <? screen_height (g_cfg env)) eqn:G; [|discriminate].
  apply Z.ltb_lt in G.
  destruct (draw_lines env None (border_width (cfg env)) (line_spacing (cfg env))
              lines _ 0) as [panel y_acc] eqn:E.
  assert (Hp : panel = fst (panel, y_acc)) by reflexivity. rewrite <- E in Hp.
  intros H. injection H as <-. exists lines. cbn.
  repeat split; try assumption. rewrite Hp. reflexivity.
Qed.

(** X8: a constructed [ElasticMessageDialog] lies on the screen, at its
    bottom: its left edge is one border from the left, its bottom edge one
    border above the bottom of the screen, and its top edge more than one
    border below the top; its height is the computed box height less two
    borders. *)
Theorem elastic_on_screen (env : Env) (text : string) (block_movement : bool)
  (d : ElasticMessageDialog.t) :
  ElasticMessageDialog.__init__ env text block_movement = Ok d ->
  Menu.x (ElasticMessageDialog.menu d) = border_width (cfg env)
  /\ Menu.width (ElasticMessageDialog.menu d)
     = screen_width (g_cfg env) - 2 * border_width (cfg env)
  /\ Menu.height (ElasticMessageDialog.menu d)
     = ElasticMessageDialog.box_height d - 2 * border_width (cfg env)
  /\ Menu.y (ElasticMessageDialog.menu d) + Menu.height (ElasticMessageDialog.menu d)
     = screen_height (g_cfg env) - border_width (cfg env)
  /\ border_width (cfg env) < Menu.y (ElasticMessageDialog.menu d).
Proof.
  intros Hinit.
  destruct (elastic_init_inv env text block_movement d Hinit)
    as (lines & _ & _ & Hlt & ->).
  cbn [Menu.x Menu.y Menu.width Menu.height Menu.add_widget Menu.__init__].
  repeat split; lia.
Qed.

Lemma elastic_on_screen_witness :
  exists d,
    ElasticMessageDialog.__init__ demo_env
      "The quick brown fox jumps over the lazy dog and runs far away" true = Ok d
    /\ Menu.y (ElasticMessageDialog.menu d) + Menu.height (ElasticMessageDialog.menu d)
       = 115
    /\ 5 < Menu.y (ElasticMessageDialog.menu d).
Proof.
  assert (Hinit : ElasticMessageDialog.__init__ demo_env
                    "The quick brown fox jumps over the lazy dog and runs far away" true
                  = demo_elastic) by (vm_compute; reflexivity).
  unfold demo_elastic in Hinit.
  match type of Hinit with
  | _ = Ok ?d =>
      exists d; split; [exact Hinit|];
      pose proof (elastic_on_screen _ _ _ d Hinit) as (_ & _ & _ & Hy & Htop)
  end.
  split; [exact Hy | exact Htop].
Defined.

(** X9: with a line spacing and font heights that are not negative, every
    label of a constructed [ElasticMessageDialog] shows one wrapped line of
    the text, in order, in the column one border from the left, and lies
    inside the dialog's one panel, a border away from its top and bottom. *)
Theorem elastic_labels_inside (env : Env) (text : string) (block_movement : bool)
  (d : ElasticMessageDialog.t) :
  0 <= line_spacing (cfg env) ->
  (forall s, 0 <= snd (size (get_font (configured_theme env) (font_size (cfg env))) s)) ->
  ElasticMessageDialog.__init__ env text block_movement = Ok d ->
  exists lines panel,
    build_lines text
      (screen_width (g_cfg env) - 4 * border_width (cfg env))
      (get_font (configured_theme env) (font_size (cfg env))) = Ok lines
    /\ Menu.widgets (ElasticMessageDialog.menu d) = [(panel, (0, 0))]
    /\ panel_height panel = Menu.height (ElasticMessageDialog.menu d)
    /\ Forall2 (fun p line =>
                 fst p = mkLabel (snd line) None
                 /\ fst (snd p) = border_width (cfg env)
                 /\ inside env (Menu.height (ElasticMessageDialog.menu d))
                      (snd p) (fst line))
         (panel_widgets panel) lines.
Proof.
  intros Hsp Hfont Hinit.
  destruct (elastic_init_inv env text block_movement d Hinit)
    as (lines & Hlines & Hbox & Hlt & Hmenu).
  exists lines. eexists. split; [exact Hlines|]. rewrite Hmenu.
  cbn [Menu.widgets Menu.height Menu.add_widget Menu.__init__ app].
  split; [reflexivity|]. split; [apply draw_lines_size|].
  assert (Hpos : Forall (fun l : Line => 0 <= fst l) lines).
  { pose proof (build_lines_measured _ _ _ _ Hlines) as Hm.
    apply Forall_forall. intros l Hl. rewrite Forall_forall in Hm.
    destruct (Hm l Hl) as [s ->]. apply Hfont. }
  destruct (draw_lines_inside env None (border_width (cfg env))
              (line_spacing (cfg env)) lines Hsp Hpos
              (mkPanel (screen_width (g_cfg env) - 2 * border_width (cfg env))
                 (ElasticMessageDialog.box_height d - 2 * border_width (cfg env)) [])
              0 (border_width (cfg env))
              (ElasticMessageDialog.box_height d - 2 * border_width (cfg env)
               - border_width (cfg env)))
    as (placed & Heq & Hall).
  - lia.
  - rewrite Hbox, compute_box_height_box_total. lia.
  - rewrite Heq. cbn [panel_widgets app]. unfold inside. exact Hall.
Qed.

Lemma elastic_labels_inside_witness :
  exists d lines panel,
    ElasticMessageDialog.__init__ demo_env
      "The quick brown fox jumps over the lazy dog and runs far away" true = Ok d
    /\ Menu.widgets (ElasticMessageDialog.menu d) = [(panel, (0, 0))]
    /\ Forall2 (fun p line =>
                 fst p = mkLabel (snd line) None
                 /\ fst (snd p) = border_width (cfg demo_env)
                 /\ inside demo_env (Menu.height (ElasticMessageDialog.menu d))
                      (snd p) (fst line))
         (panel_widgets panel) lines.
Proof.
  assert (Hinit : ElasticMessageDialog.__init__ demo_env
                    "The quick brown fox jumps over the lazy dog and runs far away" true
                  = demo_elastic) by (vm_compute; reflexivity).
  unfold demo_elastic in Hinit.
  assert (Hsp : 0 <= line_spacing (cfg demo_env)) by (vm_compute; discriminate).
  assert (Hfont : forall s,
             0 <= snd (size (get_font (configured_theme demo_env)
                               (font_size (cfg demo_env))) s))
    by (intros s; vm_compute; discriminate).
  match type of Hinit with
  | _ = Ok ?d =>
      destruct (elastic_labels_inside demo_env _ true d Hsp Hfont Hinit)
        as (lines & panel & _ & Hw & _ & Hall);
      exists d, lines, panel
  end.
  split; [exact Hinit|]. split; [exact Hw | exact Hall].
Defined.

(** ** Constructors and texts without a word *)

Lemma build_lines_blank (text : string) (box_width : Z) (font : Font) :
  split text = [] -> build_lines text box_width font = Raise IndexError.
Proof. intros H. unfold build_lines. now rewrite H. Qed.

Lemma build_lines_ok (text : string) (box_width : Z) (font : Font) :
  split text <> [] ->
  exists lines, build_lines text box_width font = Ok lines /\ lines <> [].
Proof.
  intros Hne. unfold build_lines.
  destruct (split text) as [|word0 rest]; [congruence|].
  destruct (size font word0) as [w0 height].
  destruct (build_lines_loop_prefix box_width font rest [] word0 height)
    as (more & Heq & Hmore).
  exists more. split; [f_equal; exact Heq | exact Hmore].
Qed.

(** X10: every dialog constructor raises [IndexError] on a text that has no
    word: the empty text or one made of white space only. *)
Theorem dialog_init_blank_text (env : Env) (text : string) (choices : list string)
  (block_movement : bool) :
  split text = [] ->
  MessageDialog.__init__ env text block_movement = Raise IndexError
  /\ ElasticMessageDialog.__init__ env text block_movement = Raise IndexError
  /\ MultiMessageDialog.__init__ env text block_movement = Raise IndexError
  /\ ChoiceDialog.__init__ env text choices block_movement = Raise IndexError.
Proof.
  intros Hblank.
  unfold MessageDialog.__init__, ElasticMessageDialog.__init__,
    MultiMessageDialog.__init__, ChoiceDialog.__init__, ChoiceDialog.__build_lines.
  rewrite !(build_lines_blank text _ _ Hblank). repeat split.
Qed.

Lemma dialog_init_blank_text_witness :
  MessageDialog.__init__ demo_env "   " true = Raise IndexError
  /\ ElasticMessageDialog.__init__ demo_env "   " true = Raise IndexError
  /\ MultiMessageDialog.__init__ demo_env "   " true = Raise IndexError
  /\ ChoiceDialog.__init__ demo_env "   " ["yes"; "no"] true = Raise IndexError.
Proof.
  apply (dialog_init_blank_text demo_env "   " ["yes"; "no"] true). reflexivity.
Defined.

(** ** More on [MessageDialog] *)

(** X11: [MessageDialog] has no height guard.  On every text with at least
    one word its constructor returns an open dialog of half the screen's
    height whose one panel carries, top to bottom, one label for each line
    [build_lines] makes of the text, however many lines there are. *)
Theorem message_init_total (env : Env) (text : string) (block_movement : bool) :
  split text <> [] ->
  exists d lines panel,
    MessageDialog.__init__ env text block_movement = Ok d
    /\ build_lines text
         (screen_width (g_cfg env) - 4 * border_width (cfg env))
         (get_font (configured_theme env) (font_size (cfg env))) = Ok lines
    /\ Menu.height (MessageDialog.menu d)
       = screen_height (g_cfg env) / 2 - 2 * border_width (cfg env)
    /\ Menu.widgets (MessageDialog.menu d) = [(panel, (0, 0))]
    /\ panel_texts panel = map snd lines
    /\ Menu.closed (MessageDialog.menu d) = false.
Proof.
  intros Hne.
  destruct (build_lines_ok text
              (screen_width (g_cfg env) - 4 * border_width (cfg env))
              (get_font (configured_theme env) (font_size (cfg env))) Hne)
    as (lines & Hlines & _).
  unfold MessageDialog.__init__.
  change (get_font (Menu.theme (Menu.__init__ env _ _ _ _ _)) (font_size (cfg env)))
    with (get_font (configured_theme env) (font_size (cfg env))).
  rewrite Hlines. cbn [bind].
  destruct (draw_lines env None (border_width (cfg env)) (line_spacing (cfg env))
              lines _ 0) as [panel y_acc] eqn:E.
  exists (MessageDialog.mk text block_movement
            (Menu.add_widget
               (Menu.__init__ env
                  (screen_width (g_cfg env) - 2 * border_width (cfg env))
                  (screen_height (g_cfg env) / 2 - 2 * border_width (cfg env))
                  (border_width (cfg env))
                  (screen_height (g_cfg env) / 2 + border_width (cfg env))
                  (0, 0, 0, 0)) panel (0, 0))), lines, panel.
  repeat split.
  assert (Hp : panel = fst (panel, y_acc)) by reflexivity. rewrite <- E in Hp.
  unfold panel_texts. rewrite <- (map_map fst label_text), Hp, draw_lines_labels.
  cbn [panel_widgets map app]. now rewrite map_map.
Qed.

Lemma message_init_total_witness :
  exists d lines panel,
    MessageDialog.__init__ tiny_env
      "The quick brown fox jumps over the lazy dog and runs far away" true = Ok d
    /\ build_lines "The quick brown fox jumps over the lazy dog and runs far away"
         (screen_width (g_cfg tiny_env) - 4 * border_width (cfg tiny_env))
         (get_font (configured_theme tiny_env) (font_size (cfg tiny_env))) = Ok lines
    /\ Menu.height (MessageDialog.menu d)
       = screen_height (g_cfg tiny_env) / 2 - 2 * border_width (cfg tiny_env)
    /\ Menu.widgets (MessageDialog.menu d) = [(panel, (0, 0))]
    /\ panel_texts panel = map snd lines
    /\ Menu.closed (MessageDialog.menu d) = false.
Proof.
  apply (message_init_total tiny_env
           "The quick brown fox jumps over the lazy dog and runs far away" true).
  vm_compute. discriminate.
Defined.

(** ** More on [MultiMessageDialog] *)

Lemma split_boxes_within (lines : list Line) (box_height line_spacing : Z)
  (boxes : list Box) :
  split_boxes lines box_height line_spacing = Ok boxes ->
  List.concat boxes = lines
  /\ (Forall (fun l => fst l <= box_height) lines ->
      Forall (within box_height line_spacing) boxes).
Proof.
  unfold split_boxes. destruct lines as [|line0 rest]; [discriminate|].
  assert (Hsingle : fst line0 = box_total line_spacing [line0])
    by now rewrite box_total_single.
  assert (Hline : [line0] <> []) by discriminate.
  destruct (split_boxes_loop_spec box_height line_spacing rest [] (fst line0) [line0]
              Hline Hsingle) as (more & Heq & _ & Hcat & _ & _ & Hin).
  intros H. injection H as <-.
  assert (Hboxes : split_boxes_loop box_height line_spacing rest [] (fst line0) [line0]
                   = more) by exact Heq.
  rewrite Hboxes. split; [exact Hcat|].
  intros Hall. inversion Hall; subst. apply Hin; [|assumption].
  unfold within. now rewrite box_total_single.
Qed.

(** What a constructed multi-page dialog is made of. *)
Lemma multi_init_inv (env : Env) (text : string) (bm : bool)
  (d : MultiMessageDialog.t) :
  MultiMessageDialog.__init__ env text bm = Ok d ->
  exists lines,
    build_lines text
      (screen_width (g_cfg env) - 4 * border_width (cfg env))
      (get_font (configured_theme env) (font_size (cfg env))) = Ok lines
    /\ split_boxes lines
         (screen_height (g_cfg env) / 2 - 4 * border_width (cfg env))
         (line_spacing (cfg env)) = Ok (MultiMessageDialog.boxes d)
    /\ Menu.width (MultiMessageDialog.menu d)
       = screen_width (g_cfg env) - 2 * border_width (cfg env)
    /\ Menu.height (MultiMessageDialog.menu d)
       = screen_height (g_cfg env) / 2 - 2 * border_width (cfg env).
Proof.
  unfold MultiMessageDialog.__init__.
  change (get_font (Menu.theme (Menu.__init__ env _ _ _ _ _)) (font_size (cfg env)))
    with (get_font (configured_theme env) (font_size (cfg env))).
  destruct (build_lines text _ _) as [lines|e]; [|discriminate]. cbn [bind].
  destruct (split_boxes lines _ _) as [boxes|e] eqn:Hboxes; [|discriminate].
  cbn [bind]. pose proof (split_boxes_nonempty _ _ _ _ Hboxes) as Hne.
  destruct boxes as [|box boxes]; [congruence|].
  intros H. injection H as <-. exists lines. repeat split. exact Hboxes.
Qed.

Lemma Forall2_map_left {A B : Type} (R : B -> A -> Prop) (f : A -> B) (l : list A) :
  (forall a, In a l -> R (f a) a) -> Forall2 R (map f l) l.
Proof.
  induction l as [|a l IH]; intros H; simpl; constructor.
  - apply H. now left.
  - apply IH. intros b Hb. apply H. now right.
Qed.

Lemma draw_panel_texts (env : Env) (width height : Z) (box : Box) :
  panel_texts (MultiMessageDialog.draw_panel env width height box) = map snd box.
Proof.
  unfold panel_texts, MultiMessageDialog.draw_panel.
  rewrite <- (map_map fst label_text), draw_lines_labels.
  cbn [panel_widgets map app]. now rewrite map_map.
Qed.

Lemma words_of_texts (box : list Line) : flat_map split (map snd box) = words_of box.
Proof.
  unfold words_of. induction box as [|l box IH]; simpl; [reflexivity|].
  now rewrite IH.
Qed.

Lemma words_of_concat (boxes : list Box) :
  flat_map words_of boxes = words_of (List.concat boxes).
Proof.
  induction boxes as [|box boxes IH]; simpl; [reflexivity|].
  now rewrite words_of_app, IH.
Qed.

(** X12: when the line spacing is not negative and the font measures heights
    between 0 and the height budget of a page, every label of every page of a
    constructed [MultiMessageDialog] shows one line of the page's box, in
    order, and lies inside the page's panel, a border away from its top and
    bottom: pagination keeps the text inside the box. *)
Theorem multi_labels_inside (env : Env) (text : string) (block_movement : bool)
  (d : MultiMessageDialog.t) :
  0 <= line_spacing (cfg env) ->
  (forall s,
     0 <= snd (size (get_font (configured_theme env) (font_size (cfg env))) s)
          <= screen_height (g_cfg env) / 2 - 4 * border_width (cfg env)) ->
  MultiMessageDialog.__init__ env text block_movement = Ok d ->
  Forall2 (fun page box =>
             panel_height page = Menu.height (MultiMessageDialog.menu d)
             /\ Forall2 (fun p line =>
                          fst p = mkLabel (snd line) None
                          /\ fst (snd p) = border_width (cfg env)
                          /\ inside env (Menu.height (MultiMessageDialog.menu d))
                               (snd p) (fst line))
                  (panel_widgets page) box)
    (pages env d) (MultiMessageDialog.boxes d).
Proof.
  intros Hsp Hfont Hinit.
  destruct (multi_init_inv env text block_movement d Hinit)
    as (lines & Hlines & Hboxes & Hwidth & Hheight).
  destruct (split_boxes_within _ _ _ _ Hboxes) as [Hcat Hwithin].
  pose proof (build_lines_measured _ _ _ _ Hlines) as Hm.
  assert (Hbound : Forall (fun l : Line =>
            0 <= fst l
            /\ fst l <= screen_height (g_cfg env) / 2 - 4 * border_width (cfg env))
            lines).
  { apply Forall_forall. intros l Hl. rewrite Forall_forall in Hm.
    destruct (Hm l Hl) as [s ->]. apply Hfont. }
  assert (Hfit : Forall (within (screen_height (g_cfg env) / 2
                                 - 4 * border_width (cfg env))
                           (line_spacing (cfg env))) (MultiMessageDialog.boxes d)).
  { apply Hwithin. apply Forall_forall. intros l Hl. rewrite Forall_forall in Hbound.
    now destruct (Hbound l Hl). }
  assert (Hpos : Forall (Forall (fun l : Line => 0 <= fst l))
                   (MultiMessageDialog.boxes d)).
  { apply Forall_concat. rewrite Hcat. apply Forall_forall. intros l Hl.
    rewrite Forall_forall in Hbound. now destruct (Hbound l Hl). }
  unfold pages. apply Forall2_map_left. intros box Hbox.
  rewrite Forall_forall in Hfit, Hpos.
  specialize (Hfit box Hbox). specialize (Hpos box Hbox). unfold within in Hfit.
  split; [apply draw_lines_size|].
  unfold MultiMessageDialog.draw_panel.
  destruct (draw_lines_inside env None (border_width (cfg env))
              (line_spacing (cfg env)) box Hsp Hpos
              (mkPanel (Menu.width (MultiMessageDialog.menu d))
                 (Menu.height (MultiMessageDialog.menu d)) [])
              0 (border_width (cfg env))
              (Menu.height (MultiMessageDialog.menu d) - border_width (cfg env)))
    as (placed & Heq & Hall).
  - lia.
  - rewrite Hheight. lia.
  - rewrite Heq. cbn [panel_widgets app]. unfold inside. exact Hall.
Qed.

(** X13: [MultiMessageDialog] takes a text of any length.  On every text with
    at least one word its constructor returns a dialog, and the labels of its
    pages, read page after page and top to bottom, carry the words of the
    text in order. *)
Theorem multi_pages_text (env : Env) (text : string) (block_movement : bool) :
  split text <> [] ->
  exists d,
    MultiMessageDialog.__init__ env text block_movement = Ok d
    /\ flat_map (fun page => flat_map split (panel_texts page)) (pages env d)
       = split text.
Proof.
  intros Hne.
  destruct (build_lines_ok text
              (screen_width (g_cfg env) - 4 * border_width (cfg env))
              (get_font (configured_theme env) (font_size (cfg env))) Hne)
    as (lines & Hlines & Hnonempty).
  destruct (MultiMessageDialog.__init__ env text block_movement) as [d|e] eqn:Hinit.
  - exists d. split; [reflexivity|].
    destruct (multi_init_inv env text block_movement d Hinit)
      as (lines' & Hlines' & Hboxes & _).
    rewrite Hlines in Hlines'. injection Hlines' as <-.
    destruct (split_boxes_within _ _ _ _ Hboxes) as [Hcat _].
    unfold pages. rewrite flat_map_concat_map, map_map.
    rewrite (map_ext _ words_of)
      by (intros box; now rewrite draw_panel_texts, words_of_texts).
    rewrite <- flat_map_concat_map, words_of_concat, Hcat.
    now apply build_lines_words with (1 := Hlines).
  - exfalso. unfold MultiMessageDialog.__init__ in Hinit.
    change (get_font (Menu.theme (Menu.__init__ env _ _ _ _ _)) (font_size (cfg env)))
      with (get_font (configured_theme env) (font_size (cfg env))) in Hinit.
    rewrite Hlines in Hinit. cbn [bind] in Hinit.
    destruct lines as [|line0 rest]; [congruence|]. discriminate Hinit.
Qed.

Lemma multi_pages_text_witness :
  exists d,
    MultiMessageDialog.__init__ demo_env
      "The quick brown fox jumps over the lazy dog and runs far away" true = Ok d
    /\ flat_map (fun page => flat_map split (panel_texts page)) (pages demo_env d)
       = split "The quick brown fox jumps over the lazy dog and runs far away".
Proof.
  apply (multi_pages_text demo_env
           "The quick brown fox jumps over the lazy dog and runs far away" true).
  vm_compute. discriminate.
Defined.

Lemma multi_labels_inside_witness :
  exists d,
    MultiMessageDialog.__init__ demo_env
      "The quick brown fox jumps over the lazy dog and runs far away" true = Ok d
    /\ Forall2 (fun page box =>
                 panel_height page = Menu.height (MultiMessageDialog.menu d)
                 /\ Forall2 (fun p line =>
                              fst p = mkLabel (snd line) None
                              /\ fst (snd p) = border_width (cfg demo_env)
                              /\ inside demo_env
                                   (Menu.height (MultiMessageDialog.menu d))
                                   (snd p) (fst line))
                      (panel_widgets page) box)
         (pages demo_env d) (MultiMessageDialog.boxes d).
Proof.
  assert (Hinit : MultiMessageDialog.__init__ demo_env
                    "The quick brown fox jumps over the lazy dog and runs far away" true
                  = demo_multi) by (vm_compute; reflexivity).
  unfold demo_multi in Hinit.
  assert (Hsp : 0 <= line_spacing (cfg demo_env)) by (vm_compute; discriminate).
  assert (Hfont : forall s,
             0 <= snd (size (get_font (configured_theme demo_env)
                               (font_size (cfg demo_env))) s)
                  <= screen_height (g_cfg demo_env) / 2
                     - 4 * border_width (cfg demo_env))
    by (intros s; split; vm_compute; discriminate).
  match type of Hinit with
  | _ = Ok ?d =>
      exists d; split; [exact Hinit|];
      exact (multi_labels_inside demo_env _ true d Hsp Hfont Hinit)
  end.
Defined.

(** A dialog that ran out of pages: closed, and no page left. *)
Lemma process_event_finished (env : Env) (d : MultiMessageDialog.t) (event : Event) :
  closed_dialog d -> MultiMessageDialog.panels d = [] ->
  closed_dialog (fst (MultiMessageDialog.process_event env d event))
  /\ MultiMessageDialog.panels (fst (MultiMessageDialog.process_event env d event))
     = [].
Proof.
  intros (Hcur & Hwid & Hclosed) Hpan.
  unfold MultiMessageDialog.process_event, MultiMessageDialog.advance_panel.
  rewrite Hcur, Hpan.
  destruct (type event =? KEYDOWN env);
    [destruct (key_in (key event) (key_action (m_cfg env)))|];
    cbn; rewrite ?Hcur; cbn; unfold closed_dialog; cbn; auto.
Qed.

Lemma feed_finished (env : Env) (events : list Event) :
  forall d,
    closed_dialog d -> MultiMessageDialog.panels d = [] ->
    closed_dialog (feed env d events).
Proof.
  induction events as [|event events IH]; intros d Hc Hp; [exact Hc|].
  rewrite feed_cons.
  destruct (process_event_finished env d event Hc Hp) as [Hc' Hp'].
  now apply IH.
Qed.

Lemma process_event_last_page (env : Env) (pgs : list Panel) (j : nat)
  (d : MultiMessageDialog.t) (event : Event) :
  showing pgs j d ->
  S j = List.length pgs ->
  MultiMessageDialog.panels (fst (MultiMessageDialog.process_event env d event)) = [].
Proof.
  intros (p & Hp & Hcur & Hpan & _) Hlast.
  assert (Hnil : MultiMessageDialog.panels d = []).
  { rewrite Hpan. apply skipn_all2. lia. }
  unfold MultiMessageDialog.process_event, MultiMessageDialog.advance_panel.
  rewrite Hcur, Hnil.
  destruct (type event =? KEYDOWN env);
    [destruct (key_in (key event) (key_action (m_cfg env)))|]; cbn; auto.
Qed.

Lemma feed_past_last (env : Env) (pgs : list Panel) (events : list Event) :
  forall (j : nat) (d : MultiMessageDialog.t),
    showing pgs j d ->
    (List.length pgs <= j + confirms env events)%nat ->
    closed_dialog (feed env d events).
Proof.
  induction events as [|event events IH]; intros j d Hs Hk.
  - change (confirms env []) with 0%nat in Hk.
    destruct Hs as (p & Hp & _). apply nth_error_lt in Hp. lia.
  - rewrite feed_cons. rewrite confirms_cons in Hk.
    assert (Hj : (j < List.length pgs)%nat).
    { destruct Hs as (p & Hp & _). now apply nth_error_lt in Hp. }
    destruct (is_confirm env event) eqn:E.
    + destruct (process_event_confirm env pgs j d event Hs E) as [Hnext Hlast].
      destruct (Nat.eq_dec (S j) (List.length pgs)) as [Heq | Hneq].
      * apply feed_finished; [now apply Hlast|].
        now apply process_event_last_page with (pgs := pgs) (j := j).
      * apply (IH (S j)); [apply Hnext; lia | lia].
    + rewrite (process_event_other env _ _ E). now apply (IH j).
Qed.

(** X14: a [MultiMessageDialog] that ran out of pages stays closed.  After any
    sequence of events with at least as many confirm-key events as the dialog
    has pages, it has no current panel, nothing on its menu, and is closed. *)
Theorem multi_dialog_stays_closed (env : Env) (text : string) (block_movement : bool)
  (d : MultiMessageDialog.t) (events : list Event) :
  MultiMessageDialog.__init__ env text block_movement = Ok d ->
  (List.length (pages env d) <= confirms env events)%nat ->
  closed_dialog (feed env d events).
Proof.
  intros Hinit Hk.
  destruct (init_showing env text block_movement d Hinit) as [_ Hs].
  exact (feed_past_last env (pages env d) events 0%nat d Hs Hk).
Qed.

Lemma multi_dialog_stays_closed_witness :
  exists d,
    MultiMessageDialog.__init__ demo_env
      "The quick brown fox jumps over the lazy dog and runs far away" true = Ok d
    /\ closed_dialog
         (feed demo_env d [mkEvent 2 13; mkEvent 2 13; mkEvent 2 32; mkEvent 2 13]).
Proof.
  assert (Hinit : MultiMessageDialog.__init__ demo_env
                    "The quick brown fox jumps over the lazy dog and runs far away" true
                  = demo_multi) by (vm_compute; reflexivity).
  unfold demo_multi in Hinit.
  match type of Hinit with
  | _ = Ok ?d =>
      exists d; split; [exact Hinit|];
      apply (multi_dialog_stays_closed demo_env _ true d _ Hinit)
  end.
  vm_compute. repeat constructor.
Defined.

(** ** More on [ChoiceDialog] *)

Lemma build_lines_raises (text : string) (box_width : Z) (font : Font) (e : exn) :
  build_lines text box_width font = Raise e -> e = IndexError.
Proof.
  unfold build_lines. destruct (split text); [congruence|].
  destruct (size font s); discriminate.
Qed.

Lemma build_choice_lines_ok (box_width : Z) (font : Font) (choices : list string) :
  Forall (fun c => split c <> []) choices ->
  forall acc,
  exists more,
    ChoiceDialog.build_choice_lines box_width font choices acc = Ok (acc ++ more)
    /\ words_of more = flat_map split choices
    /\ (more = [] <-> choices = []).
Proof.
  induction 1 as [|choice choices Hc _ IH]; intros acc;
    cbn [ChoiceDialog.build_choice_lines].
  - exists []. rewrite app_nil_r. repeat split.
  - destruct (build_lines_ok choice box_width font Hc) as (cl & Hcl & Hne).
    rewrite Hcl. cbn [bind].
    destruct (IH (acc ++ cl)) as (more & Heq & Hwords & _).
    exists (cl ++ more). rewrite app_assoc. split; [exact Heq|]. split.
    + rewrite words_of_app, Hwords. cbn [flat_map].
      now rewrite (build_lines_words _ _ _ _ Hcl).
    + split; [|discriminate]. intros Hnil.
      destruct cl; [congruence | discriminate].
Qed.

Lemma build_choice_lines_blank (box_width : Z) (font : Font) (choices : list string) :
  Exists (fun c => split c = []) choices ->
  forall acc,
    ChoiceDialog.build_choice_lines box_width font choices acc = Raise IndexError.
Proof.
  induction 1 as [choice choices Hblank | choice choices _ IH]; intros acc;
    cbn [ChoiceDialog.build_choice_lines].
  - now rewrite (build_lines_blank _ _ _ Hblank).
  - destruct (build_lines choice box_width font) as [cl|e] eqn:E; cbn [bind].
    + apply IH.
    + now rewrite (build_lines_raises _ _ _ _ E).
Qed.

(** X15: when the prompt and every choice have at least one word, the
    constructor of [ChoiceDialog] returns a dialog whose lines carry the words
    of the prompt and whose choice lines carry the words of the choices, in
    order; its one panel shows the prompt lines as labels that cannot take the
    focus, above the choice lines as labels that can; and the cursor is bound
    to the label of the first choice line, or to nothing when there is no
    choice. *)
Theorem choice_init_ok (env : Env) (text : string) (choices : list string)
  (block_movement : bool) :
  split text <> [] ->
  Forall (fun c => split c <> []) choices ->
  exists d panel,
    ChoiceDialog.__init__ env text choices block_movement = Ok d
    /\ words_of (ChoiceDialog.lines d) = split text
    /\ words_of (ChoiceDialog.choice_lines d) = flat_map split choices
    /\ Menu.widgets (ChoiceDialog.menu d) = [(panel, (0, 0))]
    /\ map fst (panel_widgets panel)
       = map (fun l => mkLabel (snd l) (Some false)) (ChoiceDialog.lines d)
         ++ map (fun l => mkLabel (snd l) (Some true)) (ChoiceDialog.choice_lines d)
    /\ ChoiceDialog.starting_option d
       = hd_error (map (fun l => mkLabel (snd l) (Some true))
                     (ChoiceDialog.choice_lines d))
    /\ Menu.cursor (ChoiceDialog.menu d) = Some (ChoiceDialog.starting_option d)
    /\ (ChoiceDialog.starting_option d = None <-> choices = []).
Proof.
  intros Htext Hchoices. unfold ChoiceDialog.__init__, ChoiceDialog.__build_lines.
  match goal with
  | |- context [build_lines text ?bw ?font] =>
      destruct (build_lines_ok text bw font Htext) as (lines & Hlines & _);
      rewrite Hlines
  end.
  cbn [bind].
  match goal with
  | |- context [ChoiceDialog.build_choice_lines ?bw ?font choices []] =>
      destruct (build_choice_lines_ok bw font choices Hchoices [])
        as (choice_lines & Hcl & Hwords & Hnil);
      rewrite Hcl
  end.
  cbn [bind app].
  match goal with
  | |- context [draw_lines env (Some false) ?x ?sp lines ?panel 0] =>
      pose proof (draw_lines_labels env (Some false) x sp lines panel 0) as Hl1;
      destruct (draw_lines env (Some false) x sp lines panel 0)
        as [panel1 y_acc] eqn:E1
  end.
  match goal with
  | |- context [draw_lines env (Some true) ?x ?sp choice_lines panel1 y_acc] =>
      pose proof (draw_lines_labels env (Some true) x sp choice_lines panel1 y_acc)
        as Hl2;
      destruct (draw_lines env (Some true) x sp choice_lines panel1 y_acc)
        as [panel2 y_acc2] eqn:E2
  end.
  cbn [fst panel_widgets map app] in Hl1, Hl2.
  eexists. exists panel2. split; [reflexivity|].
  cbn [ChoiceDialog.lines ChoiceDialog.choice_lines ChoiceDialog.menu
       ChoiceDialog.starting_option].
  split; [now apply build_lines_words with (1 := Hlines)|].
  split; [exact Hwords|].
  split; [reflexivity|].
  split; [now rewrite Hl2, Hl1|].
  split; [now destruct choice_lines|].
  split; [reflexivity|].
  rewrite <- Hnil. destruct choice_lines; split; congruence.
Qed.

Lemma choice_init_ok_witness :
  exists d panel,
    ChoiceDialog.__init__ demo_env "Open the door?" ["yes please"; "no"] true = Ok d
    /\ words_of (ChoiceDialog.lines d) = split "Open the door?"
    /\ words_of (ChoiceDialog.choice_lines d) = flat_map split ["yes please"; "no"]
    /\ Menu.widgets (ChoiceDialog.menu d) = [(panel, (0, 0))]
    /\ map fst (panel_widgets panel)
       = map (fun l => mkLabel (snd l) (Some false)) (ChoiceDialog.lines d)
         ++ map (fun l => mkLabel (snd l) (Some true)) (ChoiceDialog.choice_lines d)
    /\ ChoiceDialog.starting_option d
       = hd_error (map (fun l => mkLabel (snd l) (Some true))
                     (ChoiceDialog.choice_lines d))
    /\ Menu.cursor (ChoiceDialog.menu d) = Some (ChoiceDialog.starting_option d)
    /\ (ChoiceDialog.starting_option d = None <-> ["yes please"; "no"] = []).
Proof.
  apply (choice_init_ok demo_env "Open the door?" ["yes please"; "no"] true).
  - vm_compute. discriminate.
  - repeat constructor; vm_compute; discriminate.
Defined.

(** X16: if one of the choices has no word, the constructor of [ChoiceDialog]
    raises [IndexError], whatever the prompt is. *)
Theorem choice_init_blank_choice (env : Env) (text : string) (choices : list string)
  (block_movement : bool) :
  Exists (fun c => split c = []) choices ->
  ChoiceDialog.__init__ env text choices block_movement = Raise IndexError.
Proof.
  intros Hblank. unfold ChoiceDialog.__init__, ChoiceDialog.__build_lines.
  match goal with
  | |- context [build_lines text ?bw ?font] =>
      destruct (build_lines text bw font) as [lines|e] eqn:E
  end; cbn [bind].
  - now rewrite (build_choice_lines_blank _ _ _ Hblank).
  - now rewrite (build_lines_raises _ _ _ _ E).
Qed.

Lemma choice_init_blank_choice_witness :
  ChoiceDialog.__init__ demo_env "Open the door?" ["yes"; " "; "no"] true
  = Raise IndexError.
Proof.
  apply (choice_init_blank_choice demo_env "Open the door?" ["yes"; " "; "no"] true).
  apply Exists_cons_tl. apply Exists_cons_hd. reflexivity.
Defined.

(** ** Closing the dialogs of one page *)

Lemma process_event_single_page (env : Env) (d : Dialog) (event : Event) :
  single_page d = true ->
  single_page (fst (process_event env d event)) = true
  /\ Menu.closed (dialog_menu (fst (process_event env d event)))
     = Menu.closed (dialog_menu d) || is_confirm env event
  /\ Menu.widgets (dialog_menu (fst (process_event env d event)))
     = Menu.widgets (dialog_menu d).
Proof.
  unfold is_confirm. destruct d as [d | d | d | d]; intros Hs; try discriminate;
    cbn [process_event].
  - unfold MessageDialog.process_event.
    destruct (type event =? KEYDOWN env);
      [destruct (key_in (key event) (key_action (m_cfg env)))|];
      cbn; rewrite ?orb_true_r, ?orb_false_r; repeat split.
  - unfold ElasticMessageDialog.process_event.
    destruct (type event =? KEYDOWN env);
      [destruct (key_in (key event) (key_action (m_cfg env)))|];
      cbn; rewrite ?orb_true_r, ?orb_false_r; repeat split.
  - unfold ChoiceDialog.process_event.
    destruct (type event =? KEYDOWN env);
      [destruct (key_in (key event) (key_action (m_cfg env)));
       destruct (key_in (key event) (key_left (m_cfg env))
                 || key_in (key event) (key_right (m_cfg env)))|];
      cbn; rewrite ?orb_true_r, ?orb_false_r; repeat split.
Qed.

(** X17: a [MessageDialog], an [ElasticMessageDialog] or a [ChoiceDialog] is
    closed after a sequence of events exactly when it was closed before or one
    of the events is a key-down of a confirm key; no event changes what is on
    its menu.  Left and right keys alone never close a [ChoiceDialog]. *)
Theorem single_page_closes_on_confirm (env : Env) (d : Dialog) (events : list Event) :
  single_page d = true ->
  Menu.closed (dialog_menu (feed_dialog env d events))
  = Menu.closed (dialog_menu d) || existsb (is_confirm env) events
  /\ Menu.widgets (dialog_menu (feed_dialog env d events))
     = Menu.widgets (dialog_menu d).
Proof.
  revert d. induction events as [|event events IH]; intros d Hs.
  - cbn. now rewrite orb_false_r.
  - change (feed_dialog env d (event :: events))
      with (feed_dialog env (fst (process_event env d event)) events).
    destruct (process_event_single_page env d event Hs) as (Hs' & Hc & Hw).
    destruct (IH _ Hs') as [IHc IHw].
    rewrite IHc, IHw, Hc, Hw. cbn [existsb]. now rewrite orb_assoc.
Qed.

Lemma single_page_closes_on_confirm_witness :
  Menu.closed (dialog_menu (feed_dialog demo_env (note "D1")
                              [mkEvent 2 276; mkEvent 3 13; mkEvent 2 32]))
  = Menu.closed (dialog_menu (note "D1"))
    || existsb (is_confirm demo_env) [mkEvent 2 276; mkEvent 3 13; mkEvent 2 32]
  /\ Menu.widgets (dialog_menu (feed_dialog demo_env (note "D1")
                                 [mkEvent 2 276; mkEvent 3 13; mkEvent 2 32]))
     = Menu.widgets (dialog_menu (note "D1")).
Proof.
  apply (single_page_closes_on_confirm demo_env (note "D1")). reflexivity.
Defined.

(** ** More on [MessageQueue] *)

Section QueueProgress.

Import MessageQueue.

Lemma running_snoc (w : World) (ctl : MenuController) :
  filter (fun c => negb (done c)) (context_stack w ++ [ctl])
  = running w ++ (if done ctl then [] else [ctl]).
Proof. unfold running. rewrite filter_app. simpl. now destruct (done ctl). Qed.

(** On an idle world with a waiting dialog, [update] stacks a controller for
    the oldest one. *)
Lemma update_idle (w : World) (d : Dialog) (rest : list Dialog) :
  invariant w ->
  running w = [] ->
  queue (self w) = d :: rest ->
  fst (update w)
  = mkWorld (mk (Some d) (Some (List.length (context_stack w))) rest)
            (context_stack w ++ [mkController d false]).
Proof.
  intros Hinv Hrun Hq. unfold update. cbn [fst].
  destruct Hinv as [(Hstack & Hcur & Hctl) | (old & last & Hstack & Hold & Hctl & Hcur)].
  - rewrite Hctl. unfold pop_next. now rewrite Hcur, Hq.
  - rewrite (running_newest w old last Hstack Hold) in Hrun.
    destruct (done last) eqn:Hdone; [|discriminate].
    rewrite Hctl. rewrite Hstack at 1. rewrite is_done_newest, Hdone.
    unfold pop_next. cbn. now rewrite Hq.
Qed.

End QueueProgress.

(** X18: the queue makes progress.  After any sequence of pushes, update ticks
    and dialog completions, if no stacked controller is running and a dialog is
    waiting, the next [update] makes the oldest waiting dialog current, takes
    it off the queue, and stacks a running controller for it. [update] returns
    [False]. *)
Theorem message_queue_progress (ops : list MessageQueue.Op) (d : Dialog)
  (rest : list Dialog) :
  MessageQueue.running (MessageQueue.run ops MessageQueue.start) = [] ->
  MessageQueue.queue (MessageQueue.self (MessageQueue.run ops MessageQueue.start))
  = d :: rest ->
  let w' := fst (MessageQueue.update (MessageQueue.run ops MessageQueue.start)) in
  MessageQueue.current (MessageQueue.self w') = Some d
  /\ MessageQueue.queue (MessageQueue.self w') = rest
  /\ MessageQueue.running w' = [MessageQueue.mkController d false]
  /\ MessageQueue.activated w'
     = MessageQueue.activated (MessageQueue.run ops MessageQueue.start) ++ [d]
  /\ MessageQueue.is_active (MessageQueue.self w') = true
  /\ snd (MessageQueue.update (MessageQueue.run ops MessageQueue.start)) = false.
Proof.
  intros Hrun Hq w'. subst w'.
  rewrite (update_idle _ d rest (invariant_run ops _ invariant_start) Hrun Hq).
  unfold MessageQueue.running at 1. cbn [MessageQueue.context_stack].
  rewrite running_snoc, Hrun. unfold MessageQueue.activated.
  cbn. rewrite map_app. repeat split.
Qed.

Lemma message_queue_progress_witness :
  let ops := [MessageQueue.Push (note "D1"); MessageQueue.Update;
              MessageQueue.Push (note "D2"); MessageQueue.Finish 0] in
  let w' := fst (MessageQueue.update (MessageQueue.run ops MessageQueue.start)) in
  MessageQueue.current (MessageQueue.self w') = Some (note "D2")
  /\ MessageQueue.queue (MessageQueue.self w') = []
  /\ MessageQueue.running w' = [MessageQueue.mkController (note "D2") false]
  /\ MessageQueue.activated w'
     = MessageQueue.activated (MessageQueue.run ops MessageQueue.start) ++ [note "D2"]
  /\ MessageQueue.is_active (MessageQueue.self w') = true
  /\ snd (MessageQueue.update (MessageQueue.run ops MessageQueue.start)) = false.
Proof.
  apply (message_queue_progress
           [MessageQueue.Push (note "D1"); MessageQueue.Update;
            MessageQueue.Push (note "D2"); MessageQueue.Finish 0]
           (note "D2") []); reflexivity.
Defined.

(** X19: when the queue is not active right after an [update], nothing is
    left to show: no dialog waits in the queue and no stacked controller is
    still running. *)
Theorem message_queue_idle (ops : list MessageQueue.Op) :
  let w' := fst (MessageQueue.update (MessageQueue.run ops MessageQueue.start)) in
  MessageQueue.is_active (MessageQueue.self w') = false ->
  MessageQueue.queue (MessageQueue.self w') = []
  /\ MessageQueue.running w' = [].
Proof.
  intros w' Hidle.
  assert (Hinv : MessageQueue.invariant w').
  { apply (invariant_step _ MessageQueue.Update).
    apply invariant_run, invariant_start. }
  assert (Hcur : MessageQueue.current (MessageQueue.self w') = None).
  { unfold MessageQueue.is_active in Hidle.
    destruct (MessageQueue.current (MessageQueue.self w')); [discriminate|reflexivity]. }
  split.
  - subst w'.
    destruct (update_pop_next (MessageQueue.run ops MessageQueue.start))
      as (w0 & Heq & _). rewrite Heq in Hcur |- *.
    unfold MessageQueue.pop_next in *.
    destruct (MessageQueue.current (MessageQueue.self w0)) eqn:Hc0;
      [congruence|].
    destruct (MessageQueue.queue (MessageQueue.self w0)) eqn:Hq0;
      [exact Hq0 | discriminate Hcur].
  - destruct (invariant_running w' Hinv) as [Hrun | (ctl & _ & Hsome)];
      [exact Hrun | congruence].
Qed.

Lemma message_queue_idle_witness :
  let ops := [MessageQueue.Push (note "D1"); MessageQueue.Update;
              MessageQueue.Finish 0] in
  let w' := fst (MessageQueue.update (MessageQueue.run ops MessageQueue.start)) in
  MessageQueue.queue (MessageQueue.self w') = []
  /\ MessageQueue.running w' = [].
Proof.
  apply (message_queue_idle
           [MessageQueue.Push (note "D1"); MessageQueue.Update;
            MessageQueue.Finish 0]).
  reflexivity.
Defined.
